(** * pgsignals.utils: change capture and dispatch

    A shallow embedding of [src/pgsignals/utils.py] and the properties of
    its setup operations (trigger binding, capture-routine installation)
    and of its listener loop (decoding, sender resolution, dispatch).

    Python objects are modelled by the data the code reads from them, the
    process by an explicit state threaded through a state-and-exception
    monad, and the PostgreSQL server by a small catalog on which the four
    statement templates of the module are interpreted. *)

From Stdlib Require Import ZArith Bool.
From stdpp Require Import base option list strings pretty gmap.

Local Open Scope string_scope.
Local Open Scope Z_scope.
Local Open Scope list_scope.

Set Warnings "-register-all".

(** ** Exceptions and results *)

(** The exception classes that the module can raise or let through. *)
Inductive exn : Type :=
| NameError (name : string)
| KeyError (key : string)
| TypeError (what : string)
| ValueError (what : string)
| ConnectionDoesNotExist (alias : string)
| ProgrammingError (what : string).

Inductive result (A : Type) : Type :=
| Ok (a : A)
| Raise (e : exn).
Arguments Ok {A} a.
Arguments Raise {A} e.

Definition is_ok {A} (r : result A) : bool :=
  match r with Ok _ => true | Raise _ => false end.

(** ** [EventKind] *)

Inductive EventKind : Type := INSERT | UPDATE | DELETE.

Global Instance EventKind_eq_dec : EqDecision EventKind.
Proof. solve_decision. Defined.

(** [EventKind.X.value] and [EventKind.X.name] (they coincide). *)
Definition value (k : EventKind) : string :=
  match k with INSERT => "INSERT" | UPDATE => "UPDATE" | DELETE => "DELETE" end.

Definition name (k : EventKind) : string := value k.

Definition is_create (self : EventKind) : bool := bool_decide (self = INSERT).
Definition is_update (self : EventKind) : bool := bool_decide (self = UPDATE).
Definition is_save (self : EventKind) : bool := is_create self || is_update self.
Definition is_delete (self : EventKind) : bool := bool_decide (self = DELETE).

Definition ALL_EVENTS : list EventKind := [INSERT; UPDATE; DELETE].

(** ** JSON values, as [json.loads] returns them

    Objects keep their items in a list (a Python dict keeps insertion
    order and has no duplicate keys); numbers are the integers. *)
Inductive json : Type :=
| JNull
| JBool (b : bool)
| JInt (z : Z)
| JStr (s : string)
| JArr (items : list json)
| JObj (items : list (string * json)).

(** [d[key]] on an item list. *)
Fixpoint dict_get (key : string) (items : list (string * json)) : option json :=
  match items with
  | [] => None
  | (k, v) :: rest => if String.eqb k key then Some v else dict_get key rest
  end.

Definition dict_keys (items : list (string * json)) : list string := items.*1.

(** ** [Event] (a dataclass: the field types are not enforced) *)
Record Event : Type := mkEvent {
  txid : json;
  operation : EventKind;
  table : json;
  row_before : json;
  row_after : json
}.

(** ** The PostgreSQL server, as far as the module's statements reach it *)
Module Pg.

Record Trigger : Type := mkTrigger {
  tg_name : string;
  tg_schema : string;
  tg_table : string;
  tg_events : list EventKind;
  tg_func : string * string
}.

(** One database, by what the statements read and write: the schemas; the
    tables and the functions, each by schema and name; the triggers; the
    rows of the staging logs (table and [payload] column, the [ts] column
    left out); the notifications sent (channel and payload). *)
Record Catalog : Type := mkCatalog {
  schemas : list string;
  tables : list (string * string);
  functions : list (string * string);
  triggers : list Trigger;
  rows : list ((string * string) * json);
  notified : list (string * string)
}.

(** The statement templates of the module, each with the arguments its
    [format] call (or f-string) interpolates. *)
Inductive Sql : Type :=
| CREATE_STAGING_TABLE (schema prefix : string)
| CREATE_EMIT_FUNC (prefix schema : string)
| DROP_TRIGGER (prefix schema table : string)
| CREATE_TRIGGER (prefix schema table : string) (operations : list string)
| LISTEN (prefix : string).

(** The names as the templates write them. The server keeps the first
    63 bytes of an identifier: the written name is the name in the
    catalog for names within that length (see [identifier] below). *)
Definition trigger_name (prefix table : string) : string := prefix +:+ "__" +:+ table.
Definition emit_func_name (prefix : string) : string := prefix +:+ "__emit_event".
Definition events_name (prefix : string) : string := prefix +:+ "__events".

(** The word of a trigger's [AFTER ... OR ...] list. *)
Definition parse_operation (s : string) : option EventKind :=
  if String.eqb s "INSERT" then Some INSERT
  else if String.eqb s "UPDATE" then Some UPDATE
  else if String.eqb s "DELETE" then Some DELETE
  else None.

Fixpoint parse_operations (ops : list string) : option (list EventKind) :=
  match ops with
  | [] => Some []
  | o :: rest =>
      match parse_operation o, parse_operations rest with
      | Some k, Some ks => Some (k :: ks)
      | _, _ => None
      end
  end.

Definition is_trigger (nm schema table : string) (t : Trigger) : bool :=
  String.eqb (tg_name t) nm && String.eqb (tg_schema t) schema
  && String.eqb (tg_table t) table.

Definition has_table (c : Catalog) (schema table : string) : bool :=
  bool_decide ((schema, table) ∈ tables c).

Definition has_function (c : Catalog) (schema fname : string) : bool :=
  bool_decide ((schema, fname) ∈ functions c).

Definition with_triggers (c : Catalog) (ts : list Trigger) : Catalog :=
  mkCatalog (schemas c) (tables c) (functions c) ts (rows c) (notified c).

Definition with_functions (c : Catalog) (fs : list (string * string)) : Catalog :=
  mkCatalog (schemas c) (tables c) fs (triggers c) (rows c) (notified c).

(** The catalog without the trigger that carries the module's name for
    [table]. *)
Definition drop_trigger (prefix schema table : string) (c : Catalog) : Catalog :=
  with_triggers c
    (filter (λ t, ¬ is_trigger (trigger_name prefix table) schema table t)
            (triggers c)).

(** The trigger [CREATE_TRIGGER] makes. *)
Definition capture_trigger (prefix schema table : string) (events : list EventKind)
    : Trigger :=
  mkTrigger (trigger_name prefix table) schema table events
            (schema, emit_func_name prefix).

(** What the server does with each statement, read by the names [Sql]
    holds (for the names on which the text sent is this statement, see
    [well_named] below).
    - [CREATE_STAGING_TABLE]: the template puts [IF NOT EXISTS] after the
      table name, which the server's grammar rejects.
    - [CREATE OR REPLACE FUNCTION]: needs the schema; the body is not
      checked against the catalog when the function is created.
    - [DROP TRIGGER IF EXISTS]: removes the named trigger of the table
      when there is one, and succeeds either way.
    - [CREATE TRIGGER]: needs the table and the function, a trigger name
      that is free on the table, and a non-empty list of distinct
      operations.
    - [LISTEN]: subscribes the session, the catalog is unchanged. *)
Definition exec (sql : Sql) (c : Catalog) : result Catalog :=
  match sql with
  | CREATE_STAGING_TABLE _ _ =>
      Raise (ProgrammingError "syntax error at or near IF")
  | CREATE_EMIT_FUNC prefix schema =>
      if bool_decide (schema ∈ schemas c) then
        if has_function c schema (emit_func_name prefix) then Ok c
        else Ok (with_functions c ((schema, emit_func_name prefix) :: functions c))
      else Raise (ProgrammingError "schema does not exist")
  | DROP_TRIGGER prefix schema table =>
      Ok (drop_trigger prefix schema table c)
  | CREATE_TRIGGER prefix schema table operations =>
      match parse_operations operations with
      | None => Raise (ProgrammingError "syntax error in trigger events")
      | Some evs =>
          if bool_decide (evs = []) then
            Raise (ProgrammingError "syntax error in trigger events")
          else if negb (bool_decide (NoDup evs)) then
            Raise (ProgrammingError "duplicate trigger events specified")
          else if negb (has_table c schema table) then
            Raise (ProgrammingError "relation does not exist")
          else if negb (has_function c schema (emit_func_name prefix)) then
            Raise (ProgrammingError "function does not exist")
          else if existsb (is_trigger (trigger_name prefix table) schema table)
                          (triggers c) then
            Raise (ProgrammingError "trigger already exists")
          else
            Ok (with_triggers c
                  (triggers c ++ [capture_trigger prefix schema table evs]))
      end
  | LISTEN _ => Ok c
  end.

(** The body of the capture routine [CREATE_EMIT_FUNC] installs, run for
    one row: build the payload, insert it into the staging log, notify
    the channel with an empty payload. [old] and [new] are
    [row_to_json(OLD)] and [row_to_json(NEW)]. *)
Definition emit_event (prefix schema : string)
    (txid_current : Z) (TG_OP : EventKind) (TG_TABLE_NAME : string)
    (old new : json) (c : Catalog) : result Catalog :=
  let payload :=
    JObj [("txid", JInt txid_current); ("operation", JStr (value TG_OP));
          ("table", JStr TG_TABLE_NAME); ("row_before", old); ("row_after", new)] in
  if has_table c schema (events_name prefix) then
    Ok (mkCatalog (schemas c) (tables c) (functions c) (triggers c)
                  (rows c ++ [((schema, events_name prefix), payload)])
                  (notified c ++ [(events_name prefix, "")]))
  else Raise (ProgrammingError "relation does not exist").

(** The triggers of a table that carry the module's name for it. *)
Definition capture_triggers (prefix schema table : string) (c : Catalog) : list Trigger :=
  filter (λ t, is_trigger (trigger_name prefix table) schema table t) (triggers c).

(** *** Names and statement texts

    The templates paste [prefix], [schema] and [table] into the text as
    they are: between double quotes, into the string literal of
    [pg_notify] inside the routine's body, and (for [LISTEN]) bare.
    [Sql] keeps the names apart, so [exec] is what the server does with
    the text when every name the template pastes is plain: ASCII
    letters, digits and underscores, not starting with a digit, and at
    most 63 bytes, the length the server keeps of an identifier. A name
    with a double quote, an empty name, a longer name or a prefix that
    cannot stand bare makes a text that the server rejects or reads as
    something else; the properties that say a statement is accepted, or
    what the catalog holds after it, are stated for plain names. *)
Definition name_char (a : Ascii.ascii) : bool :=
  let n := Ascii.nat_of_ascii a in
  ((97 <=? n) && (n <=? 122) || (65 <=? n) && (n <=? 90)
   || (48 <=? n) && (n <=? 57) || (n =? 95))%nat.

Definition digit (a : Ascii.ascii) : bool :=
  let n := Ascii.nat_of_ascii a in ((48 <=? n) && (n <=? 57))%nat.

Definition identifier (s : string) : bool :=
  match s with
  | EmptyString => false
  | String a _ =>
      negb (digit a) && forallb name_char (String.list_ascii_of_string s)
      && (String.length s <=? 63)%nat
  end.

(** The names a statement's template pastes are plain. *)
Definition well_named (sql : Sql) : bool :=
  match sql with
  | CREATE_STAGING_TABLE schema prefix =>
      identifier schema && identifier (events_name prefix)
  | CREATE_EMIT_FUNC prefix schema =>
      identifier schema && identifier (emit_func_name prefix)
      && identifier (events_name prefix)
  | DROP_TRIGGER prefix schema table =>
      identifier schema && identifier table && identifier (trigger_name prefix table)
  | CREATE_TRIGGER prefix schema table _ =>
      identifier schema && identifier table && identifier (trigger_name prefix table)
      && identifier (emit_func_name prefix)
  | LISTEN prefix => identifier (events_name prefix)
  end.

(** The names of every statement that [bind_table] and [unbind_table]
    send for a table are plain. *)
Definition plain (prefix schema table : string) : bool :=
  well_named (DROP_TRIGGER prefix schema table)
  && well_named (CREATE_EMIT_FUNC prefix schema)
  && well_named (CREATE_TRIGGER prefix schema table []).

End Pg.

(** ** The Python process *)

(** A Django model class, by what the module reads from it:
    [django_model.objects.model._meta.db_table]. *)
Record Model : Type := mkModel {
  model_label : string;
  db_table : string
}.

(** Modelled from the spec: the module [pgsignals.signals], which [listen]
    imports and which is not among the sources. Its signals are the
    handler groups of the spec's dispatcher (generic, create,
    insert-or-update, update-only, delete), under the names [listen]
    uses for them. *)
Inductive Signal : Type :=
| pgsignals_event
| pgsignals_insert_event
| pgsignals_insert_or_update_event
| pgsignals_update_event
| pgsignals_delete_event.

(** One [signal.send(sender=..., event=...)] call. *)
Record Send : Type := mkSend {
  signal : Signal;
  sender : option Model;
  event : Event
}.

Inductive Level : Type := INFO | ERROR.

(** The messages the module hands to its logger, one constructor per
    call site, with the values the message interpolates. *)
Inductive Message : Type :=
| MsgDecodeError (e : string)
| MsgEmitSignal (table : json) (action : string) (sender : option Model)
| MsgStartListen (table_name : string) (events : list string)
| MsgMuteTable (table_name : string)
| MsgCreateFunction
| MsgCannotFoundModel (table_name : json).

(** One [cursor.execute] and whether the server accepted it. *)
Record Attempt : Type := mkAttempt {
  at_db : string;
  at_sql : Pg.Sql;
  at_ok : bool
}.

(** A [float]: a finite one is [m * 2 ^ e]. *)
Inductive float : Type :=
| finite (m e : Z)
| inf
| neg_inf
| nan.

(** Python values a global name can hold: [None], a [bool], an [int], a
    [float], a [str], or an instance of a class that defines neither a
    truth value nor a comparison with [int]. *)
Inductive PyVal : Type :=
| PyNone
| PyBool (b : bool)
| PyInt (z : Z)
| PyFloat (x : float)
| PyStr (s : string)
| PyObject (what : string).

(** The state of the process: the module global [_func_created]; the
    bindings of the module's namespace that the module's own statements
    do not create (another module may set them); the databases behind
    [django.db.connections]; the statements sent so far; the calls made on
    the module logger; the entries of the [lru_cache] of [_table_to_model]
    (most recently used first); the signals sent. *)
Record Process : Type := mkProcess {
  _func_created : bool;
  namespace : gmap string PyVal;
  connections : gmap string Pg.Catalog;
  journal : list Attempt;
  log : list (Level * Message);
  lru : list (json * option Model);
  sent : list Send
}.

(** The process right after the module is imported. *)
Definition fresh (dbs : gmap string Pg.Catalog) : Process :=
  mkProcess false ∅ dbs [] [] [] [].

(** Computations of the process: a state that survives exceptions. *)
Definition M (A : Type) : Type := Process → result A * Process.

Global Instance M_ret : MRet M := λ A a st, (Ok a, st).

Global Instance M_bind : MBind M := λ A B f m st,
  match m st with
  | (Ok a, st') => f a st'
  | (Raise e, st') => (Raise e, st')
  end.

Definition raise {A} (e : exn) : M A := λ st, (Raise e, st).

(** Lifts a result computed without the state. *)
Definition lift {A} (r : result A) : M A := λ st, (r, st).

Definition when (b : bool) (m : M unit) : M unit := if b then m else mret ().

Definition log_call (lvl : Level) (msg : Message) : M unit := λ st,
  (Ok (), mkProcess (_func_created st) (namespace st) (connections st) (journal st)
                    (log st ++ [(lvl, msg)]) (lru st) (sent st)).

Definition get_func_created : M bool := λ st, (Ok (_func_created st), st).

Definition set_func_created (b : bool) : M unit := λ st,
  (Ok (), mkProcess b (namespace st) (connections st) (journal st) (log st)
                    (lru st) (sent st)).

(** [with connections[db].cursor() as cursor: cursor.execute(sql)] *)
Definition cursor_execute (db : string) (sql : Pg.Sql) : M unit := λ st,
  match connections st !! db with
  | None => (Raise (ConnectionDoesNotExist db), st)
  | Some c =>
      match Pg.exec sql c with
      | Ok c' =>
          (Ok (), mkProcess (_func_created st) (namespace st)
                            (<[db := c']> (connections st))
                            (journal st ++ [mkAttempt db sql true])
                            (log st) (lru st) (sent st))
      | Raise e =>
          (Raise e, mkProcess (_func_created st) (namespace st) (connections st)
                              (journal st ++ [mkAttempt db sql false])
                              (log st) (lru st) (sent st))
      end
  end.

Definition set_lru (entries : list (json * option Model)) : M unit := λ st,
  (Ok (), mkProcess (_func_created st) (namespace st) (connections st) (journal st)
                    (log st) entries (sent st)).

Definition get_lru : M (list (json * option Model)) := λ st, (Ok (lru st), st).

(** [signal.send(sender=sender, event=event)]; the receivers belong to the
    embedding application and are taken to return. *)
Definition send (sig : Signal) (sender : option Model) (event : Event) : M unit := λ st,
  (Ok (), mkProcess (_func_created st) (namespace st) (connections st) (journal st)
                    (log st) (lru st) (sent st ++ [mkSend sig sender event])).

(** Reading a global name that the module itself does not bind. *)
Definition load_global (name : string) : M PyVal := λ st,
  match namespace st !! name with
  | Some v => (Ok v, st)
  | None => (Raise (NameError name), st)
  end.

(** ** What the listener reads from outside the process *)

(** A [psycopg2] notification. *)
Record Notify : Type := mkNotify {
  pid : Z;
  channel : string;
  payload : string
}.

(** One turn of the [while True] loop of [iter_notifies], by what the
    outside supplies to it: the clock at the top of the turn (when the
    loop reads it, in microseconds), whether [select] reports the
    connection readable before [poll_timeout] runs out, and the
    notifications [conn.poll()] then appends to [conn.notifies]. *)
Record Wake : Type := mkWake {
  wk_now : Z;
  wk_ready : bool;
  wk_polled : list Notify
}.

(** The clock when [listen] starts, the notifications already held by the
    connection, and the turns that follow. When the turns run out the
    listener is left waiting. *)
Record World : Type := mkWorld {
  w_started_at : Z;
  w_notifies : list Notify;
  w_wakes : list Wake
}.

Inductive Outcome : Type :=
| Returned
| Waiting.

Section pgsignals.

(** The settings the module reads when it is imported, and whether its
    logger is enabled for [INFO]. *)
Variables (PREFIX DEFAULT_SCHEMA DEFAULT_DATABASE : string) (is_info : bool).

(** [json.loads]: the error message of a [JSONDecodeError], or the value. *)
Variable json_loads : string → string + json.

(** [apps.get_models()] *)
Variable get_models : list Model.

Definition _execute_sql (sql : Pg.Sql) (db : string) : M unit :=
  cursor_execute db sql.

Definition create_emit_func (db schema : string) : M unit :=
  _execute_sql (Pg.CREATE_EMIT_FUNC PREFIX schema) db;;
  when is_info (log_call INFO MsgCreateFunction).

Definition create_emit_func_once (db schema : string) : M unit :=
  created ← get_func_created;
  if negb created then
    create_emit_func db schema;;
    set_func_created true
  else mret ().

Definition unbind_table (table_name db schema : string) : M unit :=
  _execute_sql (Pg.DROP_TRIGGER PREFIX schema table_name) db;;
  when is_info (log_call INFO (MsgMuteTable table_name)).

Definition bind_table (table_name : string) (events : list EventKind)
    (db schema : string) : M unit :=
  unbind_table table_name db schema;;
  if bool_decide (0 < length events)%nat then
    create_emit_func_once db schema;;
    let operations := value <$> events in
    _execute_sql (Pg.CREATE_TRIGGER PREFIX schema table_name operations) db;;
    when is_info (log_call INFO (MsgStartListen table_name (name <$> events)))
  else mret ().

(** The wrappers take [db] and [schema] and call [bind_table] and
    [unbind_table] without them, so the callee's defaults apply. *)
Definition bind_model (django_model : Model) (events : list EventKind)
    (db schema : string) : M unit :=
  bind_table (db_table django_model) events DEFAULT_DATABASE DEFAULT_SCHEMA.

Definition unbind_model (django_model : Model) (db schema : string) : M unit :=
  unbind_table (db_table django_model) DEFAULT_DATABASE DEFAULT_SCHEMA.

(** *** Sender resolution *)

(** The arguments [lru_cache] can hash. *)
Definition hashable (j : json) : bool :=
  match j with JArr _ | JObj _ => false | _ => true end.

(** Equality of two hashable arguments as cache keys. *)
Definition key_eqb (a b : json) : bool :=
  match a, b with
  | JNull, JNull => true
  | JBool x, JBool y => Bool.eqb x y
  | JInt x, JInt y => (x =? y)%Z
  | JStr x, JStr y => String.eqb x y
  | _, _ => false
  end.

Definition lru_cache_maxsize : nat := 128.

(** Looks [key] up and takes its entry out of the list. *)
Fixpoint cache_take (key : json) (entries : list (json * option Model))
    : option (option Model * list (json * option Model)) :=
  match entries with
  | [] => None
  | (k, v) :: rest =>
      if key_eqb k key then Some (v, rest)
      else match cache_take key rest with
           | Some (r, rest') => Some (r, (k, v) :: rest')
           | None => None
           end
  end.

(** [model._meta.db_table == table_name] *)
Definition db_table_eq (table_name : json) (model : Model) : bool :=
  match table_name with
  | JStr s => String.eqb (db_table model) s
  | _ => false
  end.

(** The function under the decorator. *)
Definition _table_to_model_body (table_name : json) : M (option Model) :=
  match List.find (db_table_eq table_name) get_models with
  | Some model => mret (Some model)
  | None =>
      log_call ERROR (MsgCannotFoundModel table_name);;
      mret None
  end.

(** [@functools.lru_cache()]: a hit returns the stored result without
    running the body and makes the entry the most recent one; a miss
    runs the body, stores the result and drops the oldest entry beyond
    [maxsize]. *)
Definition _table_to_model (table_name : json) : M (option Model) :=
  if negb (hashable table_name) then raise (TypeError "unhashable type")
  else
    entries ← get_lru;
    match cache_take table_name entries with
    | Some (r, rest) =>
        set_lru ((table_name, r) :: rest);;
        mret r
    | None =>
        r ← _table_to_model_body table_name;
        entries' ← get_lru;
        set_lru (take lru_cache_maxsize ((table_name, r) :: entries'));;
        mret r
    end.

(** *** Decoding *)

(** [obj[key]] for a string key. *)
Definition getitem (obj : json) (key : string) : result json :=
  match obj with
  | JObj items =>
      match dict_get key items with
      | Some v => Ok v
      | None => Raise (KeyError key)
      end
  | JArr _ => Raise (TypeError "list indices must be integers or slices, not str")
  | JStr _ => Raise (TypeError "string indices must be integers")
  | _ => Raise (TypeError "object is not subscriptable")
  end.

(** [EventKind(v)]: the member whose value is [v]. *)
Definition EventKind_call (v : json) : result EventKind :=
  match v with
  | JStr s =>
      match List.find (λ k, String.eqb (value k) s) [INSERT; UPDATE; DELETE] with
      | Some k => Ok k
      | None => Raise (ValueError "is not a valid EventKind")
      end
  | _ => Raise (ValueError "is not a valid EventKind")
  end.

Definition Event_fields : list string :=
  ["txid"; "operation"; "table"; "row_before"; "row_after"].

(** [Event] called with the items of [_notify] as keyword arguments, once
    its [operation] item holds the member [op]: the generated [__init__]
    takes exactly the five fields. *)
Definition Event_init (kwargs : list (string * json)) (op : EventKind) : result Event :=
  if forallb (λ k, bool_decide (k ∈ Event_fields)) (dict_keys kwargs) then
    match dict_get "txid" kwargs, dict_get "table" kwargs,
          dict_get "row_before" kwargs, dict_get "row_after" kwargs with
    | Some a, Some b, Some c, Some d => Ok (mkEvent a op b c d)
    | _, _, _, _ => Raise (TypeError "missing required positional argument")
    end
  else Raise (TypeError "got an unexpected keyword argument").

(** *** Dispatch: the [else] branch of the loop body *)
Definition dispatch (event : Event) : M unit :=
  sender ← _table_to_model (table event);
  send pgsignals_event sender event;;
  when (is_create (operation event))
       (send pgsignals_insert_event sender event);;
  (if is_save (operation event) then
     send pgsignals_insert_or_update_event sender event
   else if is_update (operation event) then
     send pgsignals_update_event sender event
   else if is_delete (operation event) then
     send pgsignals_delete_event sender event
   else mret ());;
  when is_info
       (log_call INFO (MsgEmitSignal (table event) (name (operation event)) sender)).

(** *** The body of [for notify in iter_notifies()]

    The [try] holds [json.loads] and the conversion of the operation;
    its handler names [json.JSONDecodeError] only, so what the
    conversion raises is not handled. *)
Definition handle_notify (notify : Notify) : M unit :=
  match json_loads (payload notify) with
  | inl e => log_call ERROR (MsgDecodeError e)
  | inr _notify =>
      v ← lift (getitem _notify "operation");
      op ← lift (EventKind_call v);
      match _notify with
      | JObj items =>
          event ← lift (Event_init items op);
          dispatch event
      | _ => raise (TypeError "object does not support item assignment")
      end
  end.

(** *** The generator and its consumer *)

(** [l.pop()]: the last item and the list without it. *)
Definition pop {A} (l : list A) : option (A * list A) :=
  match last l with
  | Some x => Some (x, take (length l - 1) l)
  | None => None
  end.

(** [while conn.notifies: yield conn.notifies.pop()], the loop body
    running at each [yield]. At most [fuel] items are taken. *)
Fixpoint drain (fuel : nat) (notifies : list Notify) : M (list Notify) :=
  match fuel with
  | O => mret notifies
  | S fuel' =>
      match pop notifies with
      | None => mret notifies
      | Some (notify, rest) =>
          handle_notify notify;;
          drain fuel' rest
      end
  end.

(** [timedelta.seconds] of a difference given in microseconds. *)
Definition timedelta_seconds (delta : Z) : Z := (delta `div` 1000000) `mod` 86400.

Definition truthy (v : PyVal) : bool :=
  match v with
  | PyNone => false
  | PyBool b => b
  | PyInt z => negb (z =? 0)%Z
  | PyFloat (finite m _) => negb (m =? 0)%Z
  | PyFloat _ => true
  | PyStr s => negb (String.eqb s "")
  | PyObject _ => true
  end.

(** [x <= secs] for a float [x] and an int [secs]; Python compares the
    two exactly, and every comparison with [nan] is false. *)
Definition float_le (x : float) (secs : Z) : bool :=
  match x with
  | finite m e =>
      if (0 <=? e)%Z then (m * 2 ^ e <=? secs)%Z else (m <=? secs * 2 ^ (- e))%Z
  | inf => false
  | neg_inf => true
  | nan => false
  end.

(** [secs >= v] for an int [secs]: defined for the numbers, a
    [TypeError] for [None], a [str] and an object without comparison. *)
Definition int_ge (secs : Z) (v : PyVal) : result bool :=
  match v with
  | PyInt z => Ok (z <=? secs)%Z
  | PyBool b => Ok ((if b then 1 else 0) <=? secs)%Z
  | PyFloat x => Ok (float_le x secs)
  | _ => Raise (TypeError ">= not supported")
  end.

(** [iter_notifies] driven by the [for] loop, one [Wake] per turn of
    [while True]. The name [stop_secs] is bound neither in
    [iter_notifies] nor in [listen] nor by the module, so each turn
    looks it up in the module's namespace. *)
Fixpoint iter_notifies (started_at : Z) (wakes : list Wake)
    (notifies : list Notify) : M Outcome :=
  stop_secs ← load_global "stop_secs";
  match wakes with
  | [] => mret Waiting
  | wk :: rest =>
      stop ← (if truthy stop_secs
              then lift (int_ge (timedelta_seconds (wk_now wk - started_at)) stop_secs)
              else mret false);
      if (stop : bool) then mret Returned
      else if wk_ready wk then
        let notifies := notifies ++ wk_polled wk in
        left ← drain (length notifies) notifies;
        iter_notifies started_at rest left
      else iter_notifies started_at rest notifies
  end.

(** [listen]: [schema], [listen_timeout] and [events_limit] are not read
    by the body; [poll_timeout] goes to [select], whose answer the
    [Wake]s carry. *)
Definition listen (db schema : string) (poll_timeout : Z)
    (listen_timeout events_limit : option Z) (w : World) : M Outcome :=
  cursor_execute db (Pg.LISTEN PREFIX);;
  iter_notifies (w_started_at w) (w_wakes w) (w_notifies w).

End pgsignals.

(** ** Notions the properties are stated with *)

(** A call of [bind_table], by its arguments. *)
Record BindCall : Type := mkBindCall {
  bc_table : string;
  bc_events : list EventKind;
  bc_db : string;
  bc_schema : string
}.

(** A client that makes the calls one after the other and goes on when
    one of them raises. *)
Fixpoint bind_tables (PREFIX : string) (is_info : bool) (calls : list BindCall)
    (st : Process) : Process :=
  match calls with
  | [] => st
  | c :: rest =>
      bind_tables PREFIX is_info rest
        (bind_table PREFIX is_info (bc_table c) (bc_events c) (bc_db c) (bc_schema c) st).2
  end.

Definition is_emit_func (a : Attempt) : bool :=
  match at_sql a with Pg.CREATE_EMIT_FUNC _ _ => true | _ => false end.

(** The [CREATE_EMIT_FUNC] statements of a journal: [create_emit_func]
    sends one each time it is called on a known database, and nothing
    else sends any. *)
Definition emit_attempts (j : list Attempt) : list Attempt :=
  filter (λ a, is_emit_func a) j.

(** The installation attempts so far against the flag: while the flag is
    unset every attempt was rejected; once it is set exactly one was
    accepted, and it is the last. *)
Definition install_history (l : list Attempt) (flag : bool) : Prop :=
  if flag then
    ∃ fails a, l = fails ++ [a] ∧ Forall (λ x, at_ok x = false) fails ∧ at_ok a = true
  else Forall (λ x, at_ok x = false) l.

(** The fields no setup operation writes. *)
Definition frame (st st' : Process) : Prop :=
  namespace st' = namespace st ∧ lru st' = lru st ∧ sent st' = sent st.

(** The fields the listener's loop does not write. *)
Definition untouched (st st' : Process) : Prop :=
  _func_created st' = _func_created st ∧ namespace st' = namespace st ∧
  connections st' = connections st ∧ journal st' = journal st.

(** The notifications handled one after the other, in list order. *)
Fixpoint handle_each (is_info : bool) (json_loads : string → string + json)
    (get_models : list Model) (ns : list Notify) : M () :=
  match ns with
  | [] => mret ()
  | n :: rest =>
      handle_notify is_info json_loads get_models n;;
      handle_each is_info json_loads get_models rest
  end.

(** The sends of one dispatch, by operation. *)
Definition sends_for (sender : option Model) (event : Event) : list Send :=
  (λ sig, mkSend sig sender event) <$>
    match operation event with
    | INSERT => [pgsignals_event; pgsignals_insert_event; pgsignals_insert_or_update_event]
    | UPDATE => [pgsignals_event; pgsignals_insert_or_update_event]
    | DELETE => [pgsignals_event; pgsignals_delete_event]
    end.

(** The handler groups that match an operation, the update-only group
    left aside: the generic group, the create group under [is_create],
    the insert-or-update group under [is_save], the delete group under
    [is_delete]. *)
Definition groups_beside_update_only (op : EventKind) : list Signal :=
  [pgsignals_event]
  ++ (if is_create op then [pgsignals_insert_event] else [])
  ++ (if is_save op then [pgsignals_insert_or_update_event] else [])
  ++ (if is_delete op then [pgsignals_delete_event] else []).

(** Every entry of the cache holds what the function under it returns. *)
Definition cache_sound (get_models : list Model)
    (entries : list (json * option Model)) : Prop :=
  ∀ k v, (k, v) ∈ entries → v = List.find (db_table_eq k) get_models.

(** The schema a statement names ([LISTEN] names none). *)
Definition sql_schema (sql : Pg.Sql) : option string :=
  match sql with
  | Pg.CREATE_STAGING_TABLE schema _ => Some schema
  | Pg.CREATE_EMIT_FUNC _ schema => Some schema
  | Pg.DROP_TRIGGER _ schema _ => Some schema
  | Pg.CREATE_TRIGGER _ schema _ _ => Some schema
  | Pg.LISTEN _ => None
  end.

(** A statement sent to database [db] about schema [schema]. *)
Definition targets (db schema : string) (a : Attempt) : Prop :=
  at_db a = db ∧ sql_schema (at_sql a) = Some schema.

(** A decoded payload that is a JSON object. *)
Definition is_object (j : json) : bool :=
  match j with JObj _ => true | _ => false end.

(** The cache holds at most [maxsize] entries, under distinct hashable
    keys. *)
Definition cache_bounded (entries : list (json * option Model)) : Prop :=
  (length entries ≤ lru_cache_maxsize)%nat
  ∧ NoDup entries.*1
  ∧ Forall (λ k, hashable k = true) entries.*1.

(** One call of a public function of the module, by its arguments. *)
Inductive Call : Type :=
| call_bind_table (table_name : string) (events : list EventKind) (db schema : string)
| call_unbind_table (table_name db schema : string)
| call_bind_model (django_model : Model) (events : list EventKind) (db schema : string)
| call_unbind_model (django_model : Model) (db schema : string)
| call_create_emit_func (db schema : string)
| call_create_emit_func_once (db schema : string)
| call_listen (db schema : string) (poll_timeout : Z)
              (listen_timeout events_limit : option Z) (w : World).

Section client.
Context (PREFIX DEFAULT_SCHEMA DEFAULT_DATABASE : string) (is_info : bool).
Context (json_loads : string → string + json) (get_models : list Model).

Definition call (c : Call) : M unit :=
  match c with
  | call_bind_table t evs db schema => bind_table PREFIX is_info t evs db schema
  | call_unbind_table t db schema => unbind_table PREFIX is_info t db schema
  | call_bind_model m evs db schema =>
      bind_model PREFIX DEFAULT_SCHEMA DEFAULT_DATABASE is_info m evs db schema
  | call_unbind_model m db schema =>
      unbind_model PREFIX DEFAULT_SCHEMA DEFAULT_DATABASE is_info m db schema
  | call_create_emit_func db schema => create_emit_func PREFIX is_info db schema
  | call_create_emit_func_once db schema => create_emit_func_once PREFIX is_info db schema
  | call_listen db schema poll_timeout listen_timeout events_limit w =>
      listen PREFIX is_info json_loads get_models db schema poll_timeout
             listen_timeout events_limit w;;
      mret ()
  end.

(** A client that makes the calls one after the other and goes on when
    one of them raises. *)
Fixpoint session (cs : list Call) (st : Process) : Process :=
  match cs with
  | [] => st
  | c :: rest => session rest (call c st).2
  end.

(** The names the statements of a call paste are plain. *)
Definition call_plain (c : Call) : bool :=
  match c with
  | call_bind_table t _ _ schema => Pg.plain PREFIX schema t
  | call_unbind_table t _ schema => Pg.plain PREFIX schema t
  | call_bind_model m _ _ _ => Pg.plain PREFIX DEFAULT_SCHEMA (db_table m)
  | call_unbind_model m _ _ => Pg.plain PREFIX DEFAULT_SCHEMA (db_table m)
  | call_create_emit_func _ schema => Pg.well_named (Pg.CREATE_EMIT_FUNC PREFIX schema)
  | call_create_emit_func_once _ schema =>
      Pg.well_named (Pg.CREATE_EMIT_FUNC PREFIX schema)
  | call_listen _ _ _ _ _ _ => Pg.well_named (Pg.LISTEN PREFIX)
  end.

End client.

(** What the statements of the module leave of a database: its schemas,
    its tables, the rows of the staging logs and the notifications sent
    are the same, and no routine is gone. *)
Definition same_data (c c' : Pg.Catalog) : Prop :=
  Pg.schemas c' = Pg.schemas c ∧ Pg.tables c' = Pg.tables c
  ∧ Pg.rows c' = Pg.rows c ∧ Pg.notified c' = Pg.notified c
  ∧ Pg.functions c ⊆ Pg.functions c'.

(** The same aliases are known, and each database has the same data. *)
Definition same_databases (st st' : Process) : Prop :=
  ∀ db, match connections st !! db, connections st' !! db with
        | Some c, Some c' => same_data c c'
        | None, None => True
        | _, _ => False
        end.

(** A computation that leaves the data of every database. *)
Definition keeps_data {A} (m : M A) : Prop := ∀ st, same_databases st (m st).2.

(** ** Sample data for the concrete runs *)
Module Sample.

Definition dq : string := String (Ascii.ascii_of_nat 34) "".

Definition quoted (s : string) : string := dq +:+ s +:+ dq.

Definition join (sep : string) (parts : list string) : string :=
  match parts with
  | [] => ""
  | p :: rest => foldl (λ acc x, acc +:+ sep +:+ x) p rest
  end.

(** The text of a value, as [json.dumps] writes it (no escapes needed for
    the samples). *)
Fixpoint dumps (j : json) : string :=
  match j with
  | JNull => "null"
  | JBool true => "true"
  | JBool false => "false"
  | JInt z => pretty z
  | JStr s => quoted s
  | JArr items => "[" +:+ join ", " (map dumps items) +:+ "]"
  | JObj items =>
      "{" +:+ join ", " (map (λ kv, match kv with
                                   | (k, v) => quoted k +:+ ": " +:+ dumps v
                                   end) items) +:+ "}"
  end.

Definition record (txid : Z) (op table : string) (before after : json) : json :=
  JObj [("txid", JInt txid); ("operation", JStr op); ("table", JStr table);
        ("row_before", before); ("row_after", after)].

Definition row (id : Z) : json := JObj [("id", JInt id)].

Definition insert_1 : json := record 1 "INSERT" "book" JNull (row 1).
Definition insert_2 : json := record 2 "INSERT" "book" JNull (row 2).
Definition update_3 : json := record 3 "UPDATE" "book" (row 1) (row 1).
Definition foo_4 : json := record 4 "FOO" "book" JNull JNull.
Definition insert_5 : json := record 5 "INSERT" "ghost" JNull (row 1).
Definition update_6 : json := record 6 "UPDATE" "ghost" (row 1) (row 1).

Definition values : list json :=
  [insert_1; insert_2; update_3; foo_4; insert_5; update_6].

(** [json.loads] on the texts of the samples; any other text is not JSON
    here. *)
Definition loads (s : string) : string + json :=
  match List.find (λ j, String.eqb (dumps j) s) values with
  | Some j => inr j
  | None => inl "Expecting value: line 1 column 1 (char 0)"
  end.

Definition notify (j : json) : Notify := mkNotify 4242 "pg__events" (dumps j).

Definition Book : Model := mkModel "library.Book" "book".

Definition models : list Model := [Book].

(** A database with the table [public.book] and nothing of the module. *)
Definition catalog : Pg.Catalog :=
  Pg.mkCatalog ["public"] [("public", "book")] [] [] [] [].

Definition dbs : gmap string Pg.Catalog := {["default" := catalog]}.

(** The process as the module leaves it after import. *)
Definition process : Process := fresh dbs.

(** The same process after another module has set [stop_secs = None] in
    the namespace of [pgsignals.utils]. *)
Definition patched : Process :=
  mkProcess false {["stop_secs" := PyNone]} dbs [] [] [] [].

(** One turn in which two notifications arrive, [insert_1] first. *)
Definition two_inserts : World :=
  mkWorld 0 [] [mkWake 1000000 true [notify insert_1; notify insert_2]].

(** [insert_1] and then the record with operation [FOO] arrive in one
    turn; [insert_2] arrives in the next. *)
Definition foo_between : World :=
  mkWorld 0 [] [mkWake 1000000 true [notify insert_1; notify foo_4];
                mkWake 2000000 true [notify insert_2]].

(** [insert_1] and then [update_3], an update of the row it inserted,
    arrive in one turn. *)
Definition insert_then_update : World :=
  mkWorld 0 [] [mkWake 1000000 true [notify insert_1; notify update_3]].

Definition event_of (txid : Z) (op : EventKind) (table : string) (before after : json)
    : Event :=
  mkEvent (JInt txid) op (JStr table) before after.

(** The event of [update_3], and the event of [insert_5], whose table no
    model has. *)
Definition book_update : Event := event_of 3 UPDATE "book" (row 1) (row 1).
Definition ghost_insert : Event := event_of 5 INSERT "ghost" JNull (row 1).

(** The process once [ghost_insert] has been dispatched. *)
Definition after_ghost : Process := (dispatch false models ghost_insert process).2.

(** Three calls of [bind_table]: the first names a schema the database
    does not have, so its installation attempt is rejected. *)
Definition calls : list BindCall :=
  [mkBindCall "book" ALL_EVENTS "default" "nosuch";
   mkBindCall "book" ALL_EVENTS "default" "public";
   mkBindCall "book" [UPDATE] "default" "public"].

(** The process after these calls. *)
Definition bound : Process := bind_tables "pg" true calls process.

(** What a run sent: signal and transaction of each send, in order. *)
Definition sent_txids (st : Process) : list (Signal * json) :=
  (λ s, (signal s, txid (event s))) <$> sent st.

End Sample.

(** ** More sample data *)
Module Cases.

(** A payload that is an object without the key [operation]. *)
Definition no_operation : json := JObj [("txid", JInt 7); ("table", JStr "book")].

(** [json.loads] on the text of [no_operation] and on the texts of the
    samples. *)
Definition loads (s : string) : string + json :=
  if String.eqb (Sample.dumps no_operation) s then inr no_operation else Sample.loads s.

(** A database that has the staging log of the prefix [pg], and the same
    database after the capture routine has run for the insert of
    [insert_1]. *)
Definition staged : Pg.Catalog :=
  Pg.mkCatalog ["public"] [("public", "book"); ("public", "pg__events")] [] [] [] [].

Definition staged_after_insert : Pg.Catalog :=
  Pg.mkCatalog ["public"] [("public", "book"); ("public", "pg__events")] [] []
               [(("public", "pg__events"), Sample.insert_1)]
               [("pg__events", "")].

(** Two databases: [default] has the tables [book] and [author],
    [replica] has the table [book]; neither has anything of the module. *)
Definition library : Pg.Catalog :=
  Pg.mkCatalog ["public"] [("public", "book"); ("public", "author")] [] [] [] [].

Definition dbs : gmap string Pg.Catalog :=
  {["default" := library; "replica" := Sample.catalog]}.

Definition process : Process := fresh dbs.

(** The process after [bind_table('book')] on [default], and the catalog
    of [default] then. *)
Definition bound : Process :=
  (bind_table "pg" true "book" ALL_EVENTS "default" "public" process).2.

Definition bound_library : Pg.Catalog :=
  Pg.mkCatalog ["public"] [("public", "book"); ("public", "author")]
               [("public", "pg__emit_event")]
               [Pg.capture_trigger "pg" "public" "book" ALL_EVENTS] [] [].

(** The process after a [bind_table] on [bound] that names [INSERT]
    twice, which the server rejects. *)
Definition after_duplicate : Process :=
  (bind_table "pg" true "book" [INSERT; INSERT] "default" "public" bound).2.

(** A process in which another module has set [stop_secs = 2] in the
    namespace of [pgsignals.utils], and two turns of the loop: after
    one second nothing has arrived, after three [insert_1] has. *)
Definition limited : Process :=
  mkProcess false {["stop_secs" := PyInt 2]} Sample.dbs [] [] [] [].

Definition two_turns : World :=
  mkWorld 0 [] [mkWake 1000000 false [];
                mkWake 3000000 true [Sample.notify Sample.insert_1]].

Definition after_two_turns : Process :=
  (listen "pg" false Sample.loads Sample.models "default" "public" 5 (Some 60) None
          two_turns limited).2.

(** A client that binds, installs, listens, unbinds and binds again,
    also with arguments that make the calls raise. *)
Definition calls : list Call :=
  [call_bind_table "book" ALL_EVENTS "default" "public";
   call_create_emit_func "default" "nosuch";
   call_create_emit_func_once "replica" "public";
   call_bind_model Sample.Book [UPDATE] "replica" "public";
   call_listen "default" "public" 5 None None Sample.two_inserts;
   call_unbind_model Sample.Book "default" "public";
   call_unbind_table "author" "default" "public";
   call_bind_table "author" [DELETE; DELETE] "default" "public"].

End Cases.

(** * Properties *)

(** ** The setup operations *)

Lemma emit_attempts_app j1 j2 :
  emit_attempts (j1 ++ j2) = emit_attempts j1 ++ emit_attempts j2.
Proof. apply filter_app. Qed.

Lemma emit_attempts_snoc j a :
  emit_attempts (j ++ [a]) = emit_attempts j ++ (if is_emit_func a then [a] else []).
Proof.
  unfold emit_attempts. rewrite filter_app. f_equal.
  rewrite filter_cons, filter_nil. by destruct (is_emit_func a).
Qed.

Lemma parse_operations_value events :
  Pg.parse_operations (value <$> events) = Some events.
Proof.
  induction events as [|k events IH]; [done|].
  rewrite fmap_cons. cbn [Pg.parse_operations]. rewrite IH. by destruct k.
Qed.

Lemma is_trigger_capture_trigger prefix schema table events :
  Pg.is_trigger (Pg.trigger_name prefix table) schema table
                (Pg.capture_trigger prefix schema table events) = true.
Proof. unfold Pg.is_trigger. simpl. by rewrite !String.eqb_refl. Qed.

Lemma existsb_filter_neg {A} (f : A → bool) (l : list A) :
  existsb f (filter (λ x, ¬ f x) l) = false.
Proof.
  induction l as [|x l IH]; [done|].
  rewrite filter_cons. destruct (decide (¬ f x)) as [Hx|Hx]; [|done].
  simpl. rewrite IH. by destruct (f x).
Qed.

Lemma filter_capture_snoc prefix schema table events (ts : list Pg.Trigger) :
  filter (λ t, ¬ Pg.is_trigger (Pg.trigger_name prefix table) schema table t)
         (ts ++ [Pg.capture_trigger prefix schema table events])
  = filter (λ t, ¬ Pg.is_trigger (Pg.trigger_name prefix table) schema table t) ts.
Proof.
  rewrite filter_app, filter_cons, filter_nil.
  rewrite decide_False, app_nil_r; [done|].
  rewrite is_trigger_capture_trigger. by intros [].
Qed.

Lemma filter_filter_neg {A} (f : A → bool) (l : list A) :
  filter (λ x, f x) (filter (λ x, ¬ f x) l) = [].
Proof.
  induction l as [|x l IH]; [done|].
  rewrite filter_cons. destruct (decide (¬ f x)) as [Hx|Hx]; [|done].
  rewrite filter_cons, decide_False by done. done.
Qed.

Section setup.
Context (PREFIX : string) (is_info : bool).

(** A statement followed by its [INFO] message: the shape of
    [unbind_table], of [create_emit_func] and of the end of [bind_table]. *)
Lemma execute_then_log db sql msg st :
  match connections st !! db with
  | None =>
      (_execute_sql sql db;; when is_info (log_call INFO msg)) st
      = (Raise (ConnectionDoesNotExist db), st)
  | Some c =>
      ∃ st', (_execute_sql sql db;; when is_info (log_call INFO msg)) st
             = (match Pg.exec sql c with Ok _ => Ok () | Raise e => Raise e end, st') ∧
        _func_created st' = _func_created st ∧
        connections st' = match Pg.exec sql c with
                          | Ok c' => <[db := c']> (connections st)
                          | Raise _ => connections st
                          end ∧
        journal st' = journal st ++ [mkAttempt db sql (is_ok (Pg.exec sql c))] ∧
        frame st st'
  end.
Proof.
  unfold _execute_sql, cursor_execute, mbind, M_bind.
  destruct (connections st !! db) as [c|] eqn:Hc; [|done].
  destruct (Pg.exec sql c) as [c'|e]; destruct is_info; simpl.
  all: eexists; split; [reflexivity|]; simpl; repeat split; reflexivity.
Qed.

Lemma unbind_table_run table db schema st :
  match connections st !! db with
  | None =>
      unbind_table PREFIX is_info table db schema st
      = (Raise (ConnectionDoesNotExist db), st)
  | Some c =>
      ∃ st', unbind_table PREFIX is_info table db schema st = (Ok (), st') ∧
        _func_created st' = _func_created st ∧
        connections st' = <[db := Pg.drop_trigger PREFIX schema table c]> (connections st) ∧
        journal st' = journal st ++ [mkAttempt db (Pg.DROP_TRIGGER PREFIX schema table) true] ∧
        frame st st'
  end.
Proof.
  pose proof (execute_then_log db (Pg.DROP_TRIGGER PREFIX schema table)
                (MsgMuteTable table) st) as H.
  unfold unbind_table. destruct (connections st !! db); done.
Qed.

Lemma create_emit_func_run db schema st :
  match connections st !! db with
  | None =>
      create_emit_func PREFIX is_info db schema st
      = (Raise (ConnectionDoesNotExist db), st)
  | Some c =>
      ∃ st', create_emit_func PREFIX is_info db schema st
             = (match Pg.exec (Pg.CREATE_EMIT_FUNC PREFIX schema) c with
                | Ok _ => Ok () | Raise e => Raise e end, st') ∧
        _func_created st' = _func_created st ∧
        connections st' = match Pg.exec (Pg.CREATE_EMIT_FUNC PREFIX schema) c with
                          | Ok c' => <[db := c']> (connections st)
                          | Raise _ => connections st
                          end ∧
        journal st' = journal st ++ [mkAttempt db (Pg.CREATE_EMIT_FUNC PREFIX schema)
                                       (is_ok (Pg.exec (Pg.CREATE_EMIT_FUNC PREFIX schema) c))] ∧
        frame st st'
  end.
Proof. apply execute_then_log. Qed.

Lemma create_emit_func_once_set db schema st :
  _func_created st = true →
  create_emit_func_once PREFIX is_info db schema st = (Ok (), st).
Proof.
  intros H. unfold create_emit_func_once, get_func_created, mbind, M_bind.
  by rewrite H.
Qed.

Lemma create_emit_func_once_unset db schema st :
  _func_created st = false →
  create_emit_func_once PREFIX is_info db schema st
  = match create_emit_func PREFIX is_info db schema st with
    | (Ok _, st') => set_func_created true st'
    | (Raise e, st') => (Raise e, st')
    end.
Proof.
  intros H. unfold create_emit_func_once, get_func_created, mbind, M_bind.
  by rewrite H.
Qed.

Lemma bind_table_unfold table events db schema st :
  bind_table PREFIX is_info table events db schema st
  = match unbind_table PREFIX is_info table db schema st with
    | (Ok _, st1) =>
        if bool_decide (0 < length events)%nat then
          match create_emit_func_once PREFIX is_info db schema st1 with
          | (Ok _, st2) =>
              (_execute_sql (Pg.CREATE_TRIGGER PREFIX schema table (value <$> events)) db;;
               when is_info (log_call INFO (MsgStartListen table (name <$> events)))) st2
          | (Raise e, st2) => (Raise e, st2)
          end
        else (Ok (), st1)
    | (Raise e, st1) => (Raise e, st1)
    end.
Proof.
  unfold bind_table, mbind at 1, M_bind at 1.
  destruct (unbind_table _ _ _ _ _ st) as [[[]|e] st1]; [|done].
  case_bool_decide; [|done].
  unfold mbind at 1, M_bind at 1.
  by destruct (create_emit_func_once _ _ _ _ st1) as [[[]|e] st2].
Qed.

End setup.

Section binding.
Context (PREFIX : string) (is_info : bool).

(** What the last statement of [bind_table] adds to the journal. *)
Lemma create_trigger_journal table events db schema s :
  ∃ a, journal ((_execute_sql (Pg.CREATE_TRIGGER PREFIX schema table (value <$> events)) db;;
                 when is_info (log_call INFO (MsgStartListen table (name <$> events)))) s).2
       = journal s ++ a ∧
    emit_attempts a = [] ∧
    _func_created ((_execute_sql (Pg.CREATE_TRIGGER PREFIX schema table (value <$> events)) db;;
                    when is_info (log_call INFO (MsgStartListen table (name <$> events)))) s).2
    = _func_created s.
Proof.
  pose proof (execute_then_log is_info db
                (Pg.CREATE_TRIGGER PREFIX schema table (value <$> events))
                (MsgStartListen table (name <$> events)) s) as Ht.
  destruct (connections s !! db).
  - destruct Ht as (s' & -> & ? & _ & ? & _). simpl. eauto.
  - rewrite Ht. exists []. simpl. by rewrite app_nil_r.
Qed.

(** One [bind_table] keeps the installation history in shape, whatever
    its arguments and whether it raises or not. *)
Lemma bind_table_history table events db schema st j0 :
  install_history (emit_attempts j0) (_func_created st) →
  ∃ new,
    journal (bind_table PREFIX is_info table events db schema st).2 = journal st ++ new ∧
    install_history (emit_attempts (j0 ++ new))
      (_func_created (bind_table PREFIX is_info table events db schema st).2) ∧
    (_func_created st = true → emit_attempts new = []).
Proof.
  intros Hh. rewrite bind_table_unfold.
  pose proof (unbind_table_run PREFIX is_info table db schema st) as Hu.
  destruct (connections st !! db) as [c|] eqn:Hc.
  2:{ rewrite Hu. exists []. simpl. by rewrite !app_nil_r. }
  destruct Hu as (st1 & -> & Hf1 & Hc1 & Hj1 & _).
  case_bool_decide.
  2:{ simpl. eexists. split; [exact Hj1|]. rewrite Hf1, emit_attempts_snoc.
      simpl. rewrite app_nil_r. split; [done|]. intros _. done. }
  set (drop := mkAttempt db (Pg.DROP_TRIGGER PREFIX schema table) true) in *.
  destruct (_func_created st) eqn:Hf.
  - rewrite create_emit_func_once_set by congruence.
    destruct (create_trigger_journal table events db schema st1) as (a & Hja & Hea & Hfa).
    exists ([drop] ++ a).
    assert (Hnone : emit_attempts ([drop] ++ a) = []).
    { by rewrite emit_attempts_app, Hea. }
    rewrite Hja, Hj1, Hfa, Hf1, <- app_assoc. split; [done|].
    by rewrite emit_attempts_app, Hnone, app_nil_r.
  - rewrite create_emit_func_once_unset by congruence.
    pose proof (create_emit_func_run PREFIX is_info db schema st1) as He.
    rewrite Hc1, lookup_insert_eq in He.
    destruct He as (st2 & -> & Hf2 & _ & Hj2 & _).
    destruct (Pg.exec (Pg.CREATE_EMIT_FUNC PREFIX schema) _) as [c2|e]; simpl in Hj2.
    + unfold set_func_created.
      match goal with |- context [(_ ≫= _) ?s] =>
        destruct (create_trigger_journal table events db schema s) as (a & Hja & Hea & Hfa)
      end.
      set (emit := mkAttempt db (Pg.CREATE_EMIT_FUNC PREFIX schema) true) in *.
      exists ([drop; emit] ++ a).
      rewrite Hja, Hfa. simpl. rewrite Hj2, Hj1, <- !app_assoc.
      split; [done|]. split; [|done].
      exists (emit_attempts j0), emit. split; [|done].
      rewrite emit_attempts_app. f_equal.
      change (emit_attempts ([drop; emit] ++ a) = [emit]).
      by rewrite emit_attempts_app, Hea.
    + exists [drop; mkAttempt db (Pg.CREATE_EMIT_FUNC PREFIX schema) false].
      simpl. rewrite Hj2, Hj1, <- !app_assoc, Hf2, Hf1.
      split; [done|]. split; [|done].
      rewrite emit_attempts_app. apply Forall_app. split; [done|].
      by repeat constructor.
Qed.

Lemma bind_tables_history calls st j0 :
  install_history (emit_attempts j0) (_func_created st) →
  ∃ new,
    journal (bind_tables PREFIX is_info calls st) = journal st ++ new ∧
    install_history (emit_attempts (j0 ++ new))
      (_func_created (bind_tables PREFIX is_info calls st)) ∧
    (_func_created st = true → emit_attempts new = []).
Proof.
  revert st j0. induction calls as [|c calls IH]; intros st j0 Hh.
  - exists []. simpl. by rewrite !app_nil_r.
  - simpl.
    destruct (bind_table_history (bc_table c) (bc_events c) (bc_db c) (bc_schema c) st j0 Hh)
      as (new1 & Hj1 & Hh1 & Hn1).
    destruct (IH _ _ Hh1) as (new2 & Hj2 & Hh2 & Hn2).
    exists (new1 ++ new2). rewrite Hj2, Hj1, <- app_assoc. split; [done|].
    rewrite app_assoc. split; [done|].
    intros Hf. rewrite emit_attempts_app, Hn1 by done. simpl. apply Hn2.
    specialize (Hn1 Hf).
    destruct (_func_created (bind_table _ _ _ _ _ _ st).2) eqn:Hf1; [done|].
    simpl in Hh1. rewrite Hf in Hh. simpl in Hh.
    rewrite emit_attempts_app, Hn1, app_nil_r in Hh1.
    destruct Hh as (fails & a & Heq & _ & Ha). rewrite Heq in Hh1.
    rewrite Forall_app, Forall_singleton in Hh1. destruct Hh1 as [_ Hh1].
    congruence.
Qed.

(** The success path of [bind_table], with what it leaves in the
    catalog. *)
Lemma bind_table_accepted table events db schema st c :
  connections st !! db = Some c →
  schema ∈ Pg.schemas c →
  (schema, table) ∈ Pg.tables c →
  events ≠ [] → NoDup events →
  (_func_created st = true → (schema, Pg.emit_func_name PREFIX) ∈ Pg.functions c) →
  ∃ st' c',
    bind_table PREFIX is_info table events db schema st = (Ok (), st') ∧
    connections st' = <[db := c']> (connections st) ∧
    _func_created st' = true ∧
    Pg.schemas c' = Pg.schemas c ∧ Pg.tables c' = Pg.tables c ∧
    (schema, Pg.emit_func_name PREFIX) ∈ Pg.functions c' ∧
    Pg.triggers c' =
      filter (λ t, ¬ Pg.is_trigger (Pg.trigger_name PREFIX table) schema table t)
             (Pg.triggers c) ++ [Pg.capture_trigger PREFIX schema table events] ∧
    journal st' = journal st
      ++ [mkAttempt db (Pg.DROP_TRIGGER PREFIX schema table) true]
      ++ (if _func_created st then []
          else [mkAttempt db (Pg.CREATE_EMIT_FUNC PREFIX schema) true])
      ++ [mkAttempt db (Pg.CREATE_TRIGGER PREFIX schema table (value <$> events)) true].
Proof.
  intros Hc Hs Ht Hne Hnd Hfn. rewrite bind_table_unfold.
  pose proof (unbind_table_run PREFIX is_info table db schema st) as Hu. rewrite Hc in Hu.
  destruct Hu as (st1 & -> & Hf1 & Hc1 & Hj1 & _).
  rewrite bool_decide_true by (destruct events; [done|simpl; lia]).
  assert (Htail : ∀ s c2, connections s !! db = Some c2 →
     Pg.schemas c2 = Pg.schemas c → Pg.tables c2 = Pg.tables c →
     (schema, Pg.emit_func_name PREFIX) ∈ Pg.functions c2 →
     Pg.triggers c2 = Pg.triggers (Pg.drop_trigger PREFIX schema table c) →
     ∃ s' c', (_execute_sql (Pg.CREATE_TRIGGER PREFIX schema table (value <$> events)) db;;
               when is_info (log_call INFO (MsgStartListen table (name <$> events)))) s
              = (Ok (), s') ∧
       connections s' = <[db := c']> (connections s) ∧ _func_created s' = _func_created s ∧
       Pg.schemas c' = Pg.schemas c ∧ Pg.tables c' = Pg.tables c ∧
       (schema, Pg.emit_func_name PREFIX) ∈ Pg.functions c' ∧
       Pg.triggers c' = Pg.triggers c2 ++ [Pg.capture_trigger PREFIX schema table events] ∧
       journal s' = journal s
         ++ [mkAttempt db (Pg.CREATE_TRIGGER PREFIX schema table (value <$> events)) true]).
  { intros s c2 Hs2 Hsc Htb Hfun Htr.
    pose proof (execute_then_log is_info db
                  (Pg.CREATE_TRIGGER PREFIX schema table (value <$> events))
                  (MsgStartListen table (name <$> events)) s) as He.
    rewrite Hs2 in He. destruct He as (s' & -> & Hfs & Hcs & Hjs & _).
    assert (Hex : Pg.exec (Pg.CREATE_TRIGGER PREFIX schema table (value <$> events)) c2
                  = Ok (Pg.with_triggers c2
                          (Pg.triggers c2 ++ [Pg.capture_trigger PREFIX schema table events]))).
    { simpl. rewrite parse_operations_value.
      rewrite bool_decide_false by done.
      rewrite (bool_decide_true (NoDup events)) by done. simpl.
      unfold Pg.has_table, Pg.has_function.
      rewrite Htb, bool_decide_true by done. simpl.
      rewrite bool_decide_true by done. simpl.
      rewrite Htr. unfold Pg.drop_trigger. simpl. rewrite existsb_filter_neg. done. }
    rewrite Hex in *. eexists _, _. split; [done|]. simpl. done. }
  destruct (_func_created st) eqn:Hf.
  - rewrite create_emit_func_once_set by congruence.
    destruct (Htail st1 (Pg.drop_trigger PREFIX schema table c))
      as (s' & c' & -> & Hcs & Hfs & ? & ? & ? & Htr & Hjs); try done.
    { by rewrite Hc1, lookup_insert_eq. }
    { simpl. auto. }
    exists s', c'. split; [done|].
    rewrite Hcs, Hc1, insert_insert_eq, Hfs, Hf1, Hjs, Hj1, <- !app_assoc. done.
  - rewrite create_emit_func_once_unset by congruence.
    pose proof (create_emit_func_run PREFIX is_info db schema st1) as He.
    rewrite Hc1, lookup_insert_eq in He.
    destruct He as (st2 & -> & Hf2 & Hc2 & Hj2 & _).
    assert (Hex : ∃ c2,
               Pg.exec (Pg.CREATE_EMIT_FUNC PREFIX schema) (Pg.drop_trigger PREFIX schema table c)
               = Ok c2 ∧
               Pg.schemas c2 = Pg.schemas c ∧ Pg.tables c2 = Pg.tables c ∧
               (schema, Pg.emit_func_name PREFIX) ∈ Pg.functions c2 ∧
               Pg.triggers c2 = Pg.triggers (Pg.drop_trigger PREFIX schema table c)).
    { simpl. rewrite bool_decide_true by done. unfold Pg.has_function.
      case_bool_decide; eexists; (split; [done|]); simpl; repeat split; try done.
      apply list_elem_of_here. }
    destruct Hex as (c2 & Hex & ? & ? & ? & Htr2). rewrite Hex in *. simpl in Hj2.
    unfold set_func_created.
    match goal with |- context [(_ ≫= _) ?s] =>
      destruct (Htail s c2) as (s' & c' & -> & Hcs & Hfs & ? & ? & ? & Htr & Hjs)
    end; try done.
    { simpl. by rewrite Hc2, lookup_insert_eq. }
    exists s', c'. split; [done|].
    rewrite Hcs, Hfs, Hjs. simpl.
    repeat split; try done.
    + rewrite Hc2. by rewrite !insert_insert_eq.
    + by rewrite Htr, Htr2.
    + by rewrite Hj2, Hj1, <- !app_assoc.
Qed.

End binding.

(** ** The listener *)

Lemma untouched_refl st : untouched st st.
Proof. by unfold untouched. Qed.

Lemma untouched_trans st1 st2 st3 :
  untouched st1 st2 → untouched st2 st3 → untouched st1 st3.
Proof. unfold untouched. intros (-> & -> & -> & ->) (-> & -> & -> & ->). done. Qed.

Lemma pop_snoc {A} (l : list A) (x : A) : pop (l ++ [x]) = Some (x, l).
Proof.
  unfold pop. rewrite last_snoc, length_app. simpl.
  replace (length l + 1 - 1)%nat with (length l) by lia.
  by rewrite take_app_length.
Qed.

Lemma cache_take_elem key entries r rest :
  cache_take key entries = Some (r, rest) →
  ∃ k, key_eqb k key = true ∧ (k, r) ∈ entries ∧ ∀ e, e ∈ rest → e ∈ entries.
Proof.
  revert r rest. induction entries as [|[k v] entries IH]; intros r rest; [done|].
  simpl. destruct (key_eqb k key) eqn:Hk.
  - intros [= <- <-]. exists k. split; [done|]. split; [left|]. intros e He. by right.
  - destruct (cache_take key entries) as [[r' rest']|] eqn:Ht; [|done].
    intros [= <- <-]. destruct (IH _ _ eq_refl) as (k' & ? & ? & Hsub).
    exists k'. split; [done|]. split; [by right|].
    intros e [->|He]%elem_of_cons; [left|right; auto].
Qed.

Lemma key_eqb_eq k key : hashable key = true → key_eqb k key = true → k = key.
Proof.
  destruct k, key; simpl; try done.
  - intros _ H. f_equal. by apply Bool.eqb_prop.
  - intros _ H. f_equal. lia.
  - intros _ H. f_equal. by apply String.eqb_eq.
Qed.

Section listener.
Context (is_info : bool) (json_loads : string → string + json) (get_models : list Model).

(** The batch is handled from its last item to its first, and the fuel
    [length l] is enough to empty it. *)
Lemma drain_reverse (l : list Notify) st :
  drain is_info json_loads get_models (length l) l st
  = match handle_each is_info json_loads get_models (reverse l) st with
    | (Ok _, st') => (Ok [], st')
    | (Raise e, st') => (Raise e, st')
    end.
Proof.
  revert st. induction l as [|x l IH] using rev_ind; intros st; [done|].
  rewrite length_app, reverse_snoc. simpl.
  replace (length l + 1)%nat with (S (length l)) by lia. simpl.
  rewrite pop_snoc. unfold mbind, M_bind.
  destruct (handle_notify _ _ _ x st) as [[[]|e] st1]; [|done].
  apply IH.
Qed.

Lemma table_to_model_run key st :
  hashable key = true →
  ∃ r st', _table_to_model get_models key st = (Ok r, st') ∧
    untouched st st' ∧ sent st' = sent st ∧
    match cache_take key (lru st) with
    | Some (v, rest) => r = v ∧ log st' = log st ∧ lru st' = (key, v) :: rest
    | None =>
        r = List.find (db_table_eq key) get_models ∧
        log st' = log st ++ match r with
                            | Some _ => []
                            | None => [(ERROR, MsgCannotFoundModel key)]
                            end ∧
        lru st' = take lru_cache_maxsize ((key, r) :: lru st)
    end.
Proof.
  intros Hh. unfold _table_to_model, get_lru, set_lru, mbind, M_bind. rewrite Hh. simpl.
  destruct (cache_take key (lru st)) as [[v rest]|] eqn:Ht; simpl.
  - eexists _, _. split; [reflexivity|]. by simpl.
  - unfold _table_to_model_body.
    destruct (List.find (db_table_eq key) get_models) as [m|] eqn:Hm; simpl.
    + eexists _, _. split; [reflexivity|]. simpl. by rewrite app_nil_r.
    + eexists _, _. split; [reflexivity|]. by simpl.
Qed.

(** A sound cache answers as the function under it, and stays sound. *)
Lemma table_to_model_sound key st r st' :
  cache_sound get_models (lru st) →
  _table_to_model get_models key st = (Ok r, st') →
  r = List.find (db_table_eq key) get_models ∧ cache_sound get_models (lru st').
Proof.
  intros Hs Hrun.
  destruct (hashable key) eqn:Hh.
  2:{ unfold _table_to_model in Hrun. by rewrite Hh in Hrun. }
  destruct (table_to_model_run key st Hh) as (r' & st'' & Hrun' & _ & _ & Hcase).
  rewrite Hrun in Hrun'. injection Hrun' as <- <-.
  destruct (cache_take key (lru st)) as [[v rest]|] eqn:Ht.
  - destruct Hcase as (-> & _ & Hl).
    destruct (cache_take_elem _ _ _ _ Ht) as (k & Hk & Hin & Hsub).
    apply key_eqb_eq in Hk as ->; [|done].
    split; [by apply Hs|]. rewrite Hl.
    intros k' v' [[= -> ->]|Hin']%elem_of_cons; [by apply Hs|]. apply Hs; auto.
  - destruct Hcase as (-> & _ & Hl). split; [done|]. rewrite Hl.
    intros k' v' Hin'. apply subseteq_take in Hin'.
    apply elem_of_cons in Hin' as [[= -> ->]|Hin']; [done|]. by apply Hs.
Qed.

Lemma dispatch_unfold event st :
  dispatch is_info get_models event st
  = match _table_to_model get_models (table event) st with
    | (Ok sender, st1) =>
        (Ok (), mkProcess (_func_created st1) (namespace st1) (connections st1)
                  (journal st1)
                  (log st1 ++ (if is_info
                               then [(INFO, MsgEmitSignal (table event)
                                              (name (operation event)) sender)]
                               else []))
                  (lru st1) (sent st1 ++ sends_for sender event))
    | (Raise e, st1) => (Raise e, st1)
    end.
Proof.
  unfold dispatch, mbind at 1, M_bind at 1.
  destruct (_table_to_model get_models (table event) st) as [[sender|e] st1]; [|done].
  unfold sends_for.
  destruct (operation event), is_info; simpl.
  all: unfold mbind, M_bind, send, log_call, mret, M_ret; simpl.
  all: by rewrite <- ?app_assoc, ?app_nil_r.
Qed.

Lemma table_to_model_untouched key st :
  untouched st (_table_to_model get_models key st).2.
Proof.
  destruct (hashable key) eqn:Hh.
  - by destruct (table_to_model_run key st Hh) as (r & st' & -> & ? & _).
  - unfold _table_to_model. rewrite Hh. apply untouched_refl.
Qed.

Lemma dispatch_untouched event st :
  untouched st (dispatch is_info get_models event st).2.
Proof.
  rewrite dispatch_unfold.
  pose proof (table_to_model_untouched (table event) st) as H.
  by destruct (_table_to_model get_models (table event) st) as [[sender|e] st1].
Qed.

Lemma handle_notify_untouched notify st :
  untouched st (handle_notify is_info json_loads get_models notify st).2.
Proof.
  unfold handle_notify.
  destruct (json_loads (payload notify)) as [e|_notify]; [done|].
  unfold mbind, M_bind, lift, raise.
  destruct (getitem _notify "operation") as [v|e]; [|done].
  destruct (EventKind_call v) as [op|e]; [|done].
  destruct _notify; try done.
  destruct (Event_init items op) as [event|e]; [|done].
  apply dispatch_untouched.
Qed.

Lemma drain_untouched fuel notifies st :
  untouched st (drain is_info json_loads get_models fuel notifies st).2.
Proof.
  revert notifies st. induction fuel as [|fuel IH]; intros notifies st; [done|].
  simpl. destruct (pop notifies) as [[notify rest]|]; [|done].
  unfold mbind, M_bind.
  pose proof (handle_notify_untouched notify st) as H.
  destruct (handle_notify _ _ _ notify st) as [[[]|e] st1]; [|done].
  eapply untouched_trans; [exact H|apply IH].
Qed.

Lemma iter_notifies_untouched started_at wakes notifies st :
  untouched st (iter_notifies is_info json_loads get_models started_at wakes notifies st).2.
Proof.
  revert notifies st. induction wakes as [|wk rest IH]; intros notifies st.
  - simpl. unfold mbind, M_bind, load_global.
    by destruct (namespace st !! "stop_secs").
  - simpl. unfold mbind at 1, M_bind at 1, load_global.
    destruct (namespace st !! "stop_secs") as [v|]; [|done].
    unfold mbind at 1, M_bind at 1.
    assert (Hstop : ∃ r,
              (if truthy v
               then lift (int_ge (timedelta_seconds (wk_now wk - started_at)) v)
               else mret false) st = (r, st)).
    { destruct (truthy v); eauto. }
    destruct Hstop as [r ->].
    destruct r as [[]|e]; [done| |done].
    destruct (wk_ready wk); [|apply IH].
    unfold mbind, M_bind.
    pose proof (drain_untouched (length (notifies ++ wk_polled wk))
                  (notifies ++ wk_polled wk) st) as H.
    destruct (drain _ _ _ _ _ st) as [[left|e] st1]; [|done].
    eapply untouched_trans; [exact H|apply IH].
Qed.

End listener.

(** ** The claims about the setup operations *)

Section setup_claims.
Context (PREFIX DEFAULT_SCHEMA DEFAULT_DATABASE : string) (is_info : bool).

(** Every statement of one [bind_table] goes to the database and names
    the schema it was called with. *)
Lemma bind_table_targets table events db schema st :
  ∃ new,
    journal (bind_table PREFIX is_info table events db schema st).2 = journal st ++ new ∧
    Forall (targets db schema) new.
Proof.
  rewrite bind_table_unfold.
  pose proof (unbind_table_run PREFIX is_info table db schema st) as Hu.
  destruct (connections st !! db) as [c|] eqn:Hc.
  2:{ rewrite Hu. exists []. simpl. by rewrite app_nil_r. }
  destruct Hu as (st1 & -> & _ & Hc1 & Hj1 & _).
  assert (Htail : ∀ s, ∃ a,
            journal ((_execute_sql (Pg.CREATE_TRIGGER PREFIX schema table (value <$> events)) db;;
                      when is_info (log_call INFO (MsgStartListen table (name <$> events)))) s).2
            = journal s ++ a ∧ Forall (targets db schema) a).
  { intros s.
    pose proof (execute_then_log is_info db
                  (Pg.CREATE_TRIGGER PREFIX schema table (value <$> events))
                  (MsgStartListen table (name <$> events)) s) as Ht.
    destruct (connections s !! db).
    - destruct Ht as (s' & -> & _ & _ & Hj & _). simpl. rewrite Hj.
      eexists. split; [done|]. by repeat constructor.
    - rewrite Ht. exists []. simpl. by rewrite app_nil_r. }
  case_bool_decide.
  2:{ simpl. eexists. split; [exact Hj1|]. by repeat constructor. }
  destruct (_func_created st1) eqn:Hf.
  - rewrite create_emit_func_once_set by done.
    destruct (Htail st1) as (a & -> & Ha). rewrite Hj1, <- app_assoc.
    eexists. split; [done|]. apply Forall_app. split; [|done]. by repeat constructor.
  - rewrite create_emit_func_once_unset by done.
    pose proof (create_emit_func_run PREFIX is_info db schema st1) as He.
    rewrite Hc1, lookup_insert_eq in He.
    destruct He as (st2 & -> & _ & _ & Hj2 & _).
    destruct (Pg.exec (Pg.CREATE_EMIT_FUNC PREFIX schema) _) as [c2|e].
    + unfold set_func_created.
      match goal with |- context [(_ ≫= _) ?s] => destruct (Htail s) as (a & -> & Ha) end.
      simpl. rewrite Hj2, Hj1, <- !app_assoc.
      eexists. split; [done|]. apply Forall_app. split; [by repeat constructor|].
      apply Forall_app. split; [by repeat constructor|done].
    + simpl. rewrite Hj2, Hj1, <- !app_assoc.
      eexists. split; [done|]. by repeat constructor.
Qed.

(** C10. The wrappers [bind_model] and [unbind_model] accept [db] and
    [schema] and do not pass them on: whatever the caller gives, they run
    [bind_table] and [unbind_table] on the model's table with the default
    database and the default schema, and every statement they send goes
    to that database and names that schema. *)
Theorem bind_model_ignores_db_and_schema
    (django_model : Model) (events : list EventKind) (db schema : string)
    (st : Process) :
  bind_model PREFIX DEFAULT_SCHEMA DEFAULT_DATABASE is_info django_model events db schema st
  = bind_table PREFIX is_info (db_table django_model) events
               DEFAULT_DATABASE DEFAULT_SCHEMA st
  ∧ unbind_model PREFIX DEFAULT_SCHEMA DEFAULT_DATABASE is_info django_model db schema st
    = unbind_table PREFIX is_info (db_table django_model)
                   DEFAULT_DATABASE DEFAULT_SCHEMA st
  ∧ (∃ new,
       journal (bind_model PREFIX DEFAULT_SCHEMA DEFAULT_DATABASE is_info
                           django_model events db schema st).2
       = journal st ++ new
       ∧ Forall (targets DEFAULT_DATABASE DEFAULT_SCHEMA) new)
  ∧ (∃ new,
       journal (unbind_model PREFIX DEFAULT_SCHEMA DEFAULT_DATABASE is_info
                             django_model db schema st).2
       = journal st ++ new
       ∧ Forall (targets DEFAULT_DATABASE DEFAULT_SCHEMA) new).
Proof.
  split; [reflexivity|]. split; [reflexivity|]. split.
  - unfold bind_model. apply bind_table_targets.
  - unfold unbind_model.
    pose proof (unbind_table_run PREFIX is_info (db_table django_model)
                  DEFAULT_DATABASE DEFAULT_SCHEMA st) as Hu.
    destruct (connections st !! DEFAULT_DATABASE) as [c|].
    + destruct Hu as (st1 & -> & _ & _ & Hj & _). simpl. rewrite Hj.
      eexists. split; [done|]. by repeat constructor.
    + rewrite Hu. exists []. simpl. by rewrite app_nil_r.
Qed.

End setup_claims.

(** ** The installed flag *)

Lemma install_history_accepted l flag :
  install_history l flag →
  length (filter (λ a, at_ok a = true) l) = if flag then 1%nat else 0%nat.
Proof.
  assert (Hfails : ∀ fails, Forall (λ x, at_ok x = false) fails →
            filter (λ a, at_ok a = true) fails = []).
  { induction 1 as [|x fails Hx _ IH]; [done|].
    rewrite filter_cons, decide_False by congruence. done. }
  destruct flag; simpl.
  - intros (fails & a & -> & Hf & Ha).
    rewrite filter_app, (Hfails _ Hf), filter_cons, decide_True by done. done.
  - intros Hf. by rewrite (Hfails _ Hf).
Qed.

Section flag.
Context (PREFIX DEFAULT_SCHEMA DEFAULT_DATABASE : string) (is_info : bool).
Context (json_loads : string → string + json) (get_models : list Model).

Lemma create_emit_func_keeps_flag db schema st :
  _func_created (create_emit_func PREFIX is_info db schema st).2 = _func_created st.
Proof.
  pose proof (create_emit_func_run PREFIX is_info db schema st) as H.
  destruct (connections st !! db); [|by rewrite H].
  by destruct H as (st' & -> & ? & _).
Qed.

Lemma unbind_table_keeps_flag table db schema st :
  _func_created (unbind_table PREFIX is_info table db schema st).2 = _func_created st.
Proof.
  pose proof (unbind_table_run PREFIX is_info table db schema st) as H.
  destruct (connections st !! db); [|by rewrite H].
  by destruct H as (st' & -> & ? & _).
Qed.

Lemma bind_table_keeps_flag_set table events db schema st :
  _func_created st = true →
  _func_created (bind_table PREFIX is_info table events db schema st).2 = true.
Proof.
  intros Hf.
  destruct (bind_table_history PREFIX is_info table events db schema st
              [mkAttempt db (Pg.CREATE_EMIT_FUNC PREFIX schema) true])
    as (new & _ & Hh & Hn).
  { rewrite Hf. by exists [], (mkAttempt db (Pg.CREATE_EMIT_FUNC PREFIX schema) true). }
  destruct (_func_created (bind_table _ _ _ _ _ _ st).2); [done|].
  rewrite emit_attempts_app, (Hn Hf), app_nil_r in Hh. simpl in Hh.
  unfold emit_attempts in Hh. rewrite filter_cons, decide_True, filter_nil in Hh by done.
  rewrite Forall_singleton in Hh. done.
Qed.

Lemma listen_keeps_flag db schema poll_timeout listen_timeout events_limit w st :
  _func_created (listen PREFIX is_info json_loads get_models db schema poll_timeout
                        listen_timeout events_limit w st).2
  = _func_created st.
Proof.
  unfold listen, mbind, M_bind, cursor_execute.
  destruct (connections st !! db) as [c|]; [|done]. simpl.
  match goal with |- context [iter_notifies _ _ _ ?a ?b ?c ?s] =>
    pose proof (iter_notifies_untouched is_info json_loads get_models a b c s) as H;
    destruct (iter_notifies is_info json_loads get_models a b c s) as [[o|e] st1]
  end; by destruct H as (-> & _).
Qed.

(** C8 (as amended). The flag [_func_created] is false when the module has
    just been imported. [create_emit_func_once] calls [create_emit_func] exactly
    when the flag is unset, returns what that call returns, and sets the
    flag only when the call returned: when it raises the flag stays unset,
    so the next call tries again. No operation of the module unsets the
    flag. Hence over any sequence of [bind_table] calls, each of which may
    raise, every installation attempt before the flag is set was rejected,
    at most one attempt is accepted, it is the last one, and once the flag
    is set no further attempt is made. *)
Theorem func_created_lifecycle :
  (∀ dbs, _func_created (fresh dbs) = false)
  ∧ (∀ db schema st,
       (create_emit_func_once PREFIX is_info db schema st).1
       = (if _func_created st then Ok ()
          else (create_emit_func PREFIX is_info db schema st).1)
       ∧ _func_created (create_emit_func_once PREFIX is_info db schema st).2
         = (_func_created st || is_ok (create_emit_func PREFIX is_info db schema st).1)
       ∧ (_func_created st = true →
          (create_emit_func_once PREFIX is_info db schema st).2 = st))
  ∧ (∀ st, _func_created st = true →
       (∀ db schema, _func_created (create_emit_func PREFIX is_info db schema st).2 = true)
       ∧ (∀ db schema,
            _func_created (create_emit_func_once PREFIX is_info db schema st).2 = true)
       ∧ (∀ table db schema,
            _func_created (unbind_table PREFIX is_info table db schema st).2 = true)
       ∧ (∀ table events db schema,
            _func_created (bind_table PREFIX is_info table events db schema st).2 = true)
       ∧ (∀ m db schema,
            _func_created (unbind_model PREFIX DEFAULT_SCHEMA DEFAULT_DATABASE is_info
                                        m db schema st).2 = true)
       ∧ (∀ m events db schema,
            _func_created (bind_model PREFIX DEFAULT_SCHEMA DEFAULT_DATABASE is_info
                                      m events db schema st).2 = true)
       ∧ (∀ db schema poll_timeout listen_timeout events_limit w,
            _func_created (listen PREFIX is_info json_loads get_models db schema
                                  poll_timeout listen_timeout events_limit w st).2 = true))
  ∧ (∀ calls dbs,
       install_history
         (emit_attempts (journal (bind_tables PREFIX is_info calls (fresh dbs))))
         (_func_created (bind_tables PREFIX is_info calls (fresh dbs)))
       ∧ (length (filter (λ a, at_ok a = true)
                    (emit_attempts (journal (bind_tables PREFIX is_info calls (fresh dbs)))))
          ≤ 1)%nat)
  ∧ (∀ calls st, _func_created st = true →
       emit_attempts (journal (bind_tables PREFIX is_info calls st))
       = emit_attempts (journal st)).
Proof.
  split; [done|]. split; [|split; [|split]].
  - intros db schema st. destruct (_func_created st) eqn:Hf.
    + rewrite create_emit_func_once_set by done. done.
    + rewrite create_emit_func_once_unset by done.
      pose proof (create_emit_func_keeps_flag db schema st) as Hk.
      destruct (create_emit_func PREFIX is_info db schema st) as [[[]|e] st1]; simpl in *.
      * done.
      * by rewrite Hk, Hf.
  - intros st Hf. repeat split; intros.
    + by rewrite create_emit_func_keeps_flag.
    + by rewrite create_emit_func_once_set.
    + by rewrite unbind_table_keeps_flag.
    + by apply bind_table_keeps_flag_set.
    + unfold unbind_model. by rewrite unbind_table_keeps_flag.
    + unfold bind_model. by apply bind_table_keeps_flag_set.
    + by rewrite listen_keeps_flag.
  - intros calls dbs.
    destruct (bind_tables_history PREFIX is_info calls (fresh dbs) [])
      as (new & Hj & Hh & _); [by constructor|].
    rewrite Hj. simpl in *. split; [done|].
    rewrite (install_history_accepted _ _ Hh). destruct (_func_created _); lia.
  - intros calls st Hf.
    destruct (bind_tables_history PREFIX is_info calls st
                [mkAttempt "" (Pg.CREATE_EMIT_FUNC "" "") true])
      as (new & Hj & _ & Hn).
    { rewrite Hf. by exists [], (mkAttempt "" (Pg.CREATE_EMIT_FUNC "" "") true). }
    by rewrite Hj, emit_attempts_app, (Hn Hf), app_nil_r.
Qed.

End flag.

(** ** Binding a table *)

Section bind_claims.
Context (PREFIX : string) (is_info : bool).

Lemma capture_triggers_after_bind schema table events (ts : list Pg.Trigger) c :
  Pg.triggers c
  = filter (λ t, ¬ Pg.is_trigger (Pg.trigger_name PREFIX table) schema table t) ts
    ++ [Pg.capture_trigger PREFIX schema table events] →
  Pg.capture_triggers PREFIX schema table c = [Pg.capture_trigger PREFIX schema table events].
Proof.
  intros H. unfold Pg.capture_triggers. rewrite H, filter_app, filter_filter_neg.
  rewrite filter_cons, decide_True, filter_nil; [done|].
  by rewrite is_trigger_capture_trigger.
Qed.

End bind_claims.

(** With the flag set and no capture routine in the schema,
    [bind_table] drops the trigger of the table, sends no
    [CREATE_EMIT_FUNC], and raises at its [CREATE TRIGGER]. *)
Lemma bind_table_routine_missing_run
    (PREFIX : string) (is_info : bool)
    (table : string) (events : list EventKind) (db schema : string)
    (st : Process) (c : Pg.Catalog) :
  connections st !! db = Some c →
  _func_created st = true →
  (schema, Pg.emit_func_name PREFIX) ∉ Pg.functions c →
  (schema, table) ∈ Pg.tables c →
  events ≠ [] → NoDup events →
  ∃ st',
    bind_table PREFIX is_info table events db schema st
    = (Raise (ProgrammingError "function does not exist"), st')
    ∧ journal st' = journal st
        ++ [mkAttempt db (Pg.DROP_TRIGGER PREFIX schema table) true;
            mkAttempt db (Pg.CREATE_TRIGGER PREFIX schema table (value <$> events)) false]
    ∧ connections st' = <[db := Pg.drop_trigger PREFIX schema table c]> (connections st)
    ∧ _func_created st' = true.
Proof.
  intros Hc Hf Hnf Ht Hne Hnd. rewrite bind_table_unfold.
  pose proof (unbind_table_run PREFIX is_info table db schema st) as Hu. rewrite Hc in Hu.
  destruct Hu as (st1 & -> & Hf1 & Hc1 & Hj1 & _).
  rewrite bool_decide_true by (destruct events; [done|simpl; lia]).
  rewrite create_emit_func_once_set by congruence.
  pose proof (execute_then_log is_info db
                (Pg.CREATE_TRIGGER PREFIX schema table (value <$> events))
                (MsgStartListen table (name <$> events)) st1) as He.
  rewrite Hc1, lookup_insert_eq in He. destruct He as (st2 & -> & Hf2 & Hc2 & Hj2 & _).
  assert (Hex : Pg.exec (Pg.CREATE_TRIGGER PREFIX schema table (value <$> events))
                        (Pg.drop_trigger PREFIX schema table c)
                = Raise (ProgrammingError "function does not exist")).
  { simpl. rewrite parse_operations_value.
    rewrite bool_decide_false by done.
    rewrite (bool_decide_true (NoDup events)) by done. simpl.
    unfold Pg.has_table, Pg.has_function. simpl.
    rewrite bool_decide_true by done. simpl.
    by rewrite bool_decide_false by done. }
  rewrite Hex in *. exists st2.
  split; [done|]. split; [by rewrite Hj2, Hj1, <- app_assoc|].
  split; [done|congruence].
Qed.

(** C6. [bind_table] does not leave one trigger on every table. The
    flag [_func_created] is one for the whole process: once a
    [bind_table] on one database has set it, [bind_table] on a table of
    another database, which does not have the capture routine, drops
    the trigger of the table, sends no [CREATE_EMIT_FUNC], and has its
    [CREATE TRIGGER] rejected. The call raises, a second call with the
    same arguments raises again, and the table is left with no trigger
    at all. *)
Theorem bind_table_on_another_database_raises
    (PREFIX : string) (is_info : bool)
    (table0 : string) (events0 : list EventKind) (db0 schema0 : string)
    (table : string) (events : list EventKind) (db schema : string)
    (st : Process) (c0 c : Pg.Catalog) :
  Pg.plain PREFIX schema0 table0 = true →
  Pg.plain PREFIX schema table = true →
  _func_created st = false →
  connections st !! db0 = Some c0 →
  schema0 ∈ Pg.schemas c0 → (schema0, table0) ∈ Pg.tables c0 →
  events0 ≠ [] → NoDup events0 →
  db ≠ db0 →
  connections st !! db = Some c →
  (schema, table) ∈ Pg.tables c →
  (schema, Pg.emit_func_name PREFIX) ∉ Pg.functions c →
  events ≠ [] → NoDup events →
  ∃ st0 st1 st2 c2,
    bind_table PREFIX is_info table0 events0 db0 schema0 st = (Ok (), st0)
    ∧ bind_table PREFIX is_info table events db schema st0
      = (Raise (ProgrammingError "function does not exist"), st1)
    ∧ bind_table PREFIX is_info table events db schema st1
      = (Raise (ProgrammingError "function does not exist"), st2)
    ∧ journal st2 = journal st0
        ++ [mkAttempt db (Pg.DROP_TRIGGER PREFIX schema table) true;
            mkAttempt db (Pg.CREATE_TRIGGER PREFIX schema table (value <$> events)) false;
            mkAttempt db (Pg.DROP_TRIGGER PREFIX schema table) true;
            mkAttempt db (Pg.CREATE_TRIGGER PREFIX schema table (value <$> events)) false]
    ∧ connections st2 !! db = Some c2
    ∧ Pg.capture_triggers PREFIX schema table c2 = []
    ∧ length (Pg.capture_triggers PREFIX schema table c2) ≠ 1%nat.
Proof.
  intros _ _ Hflag Hc0 Hs0 Ht0 Hne0 Hnd0 Hdb Hc Ht Hnf Hne Hnd.
  destruct (bind_table_accepted PREFIX is_info table0 events0 db0 schema0 st c0)
    as (st0 & c0' & Hb0 & Hcs0 & Hf0 & _); try done.
  { by rewrite Hflag. }
  assert (Hl0 : connections st0 !! db = Some c) by (by rewrite Hcs0, lookup_insert_ne).
  destruct (bind_table_routine_missing_run PREFIX is_info table events db schema st0 c)
    as (st1 & Hb1 & Hj1 & Hcs1 & Hf1); try done.
  assert (Hl1 : connections st1 !! db = Some (Pg.drop_trigger PREFIX schema table c))
    by (by rewrite Hcs1, lookup_insert_eq).
  destruct (bind_table_routine_missing_run PREFIX is_info table events db schema st1
              (Pg.drop_trigger PREFIX schema table c))
    as (st2 & Hb2 & Hj2 & Hcs2 & _); try done.
  assert (Hnone : Pg.capture_triggers PREFIX schema table
                    (Pg.drop_trigger PREFIX schema table
                       (Pg.drop_trigger PREFIX schema table c)) = [])
    by apply filter_filter_neg.
  exists st0, st1, st2,
    (Pg.drop_trigger PREFIX schema table (Pg.drop_trigger PREFIX schema table c)).
  split; [done|]. split; [done|]. split; [done|].
  split; [by rewrite Hj2, Hj1, <- app_assoc|].
  split; [by rewrite Hcs2, lookup_insert_eq|]. split; [done|].
  by rewrite Hnone.
Qed.

Lemma bind_table_on_another_database_raises_witness :
  ∃ st0 st1 st2 c2,
    bind_table "pg" true "book" ALL_EVENTS "default" "public" Cases.process = (Ok (), st0)
    ∧ bind_table "pg" true "book" ALL_EVENTS "replica" "public" st0
      = (Raise (ProgrammingError "function does not exist"), st1)
    ∧ bind_table "pg" true "book" ALL_EVENTS "replica" "public" st1
      = (Raise (ProgrammingError "function does not exist"), st2)
    ∧ connections st2 !! "replica" = Some c2
    ∧ Pg.capture_triggers "pg" "public" "book" c2 = [].
Proof.
  assert (H1 : Pg.plain "pg" "public" "book" = true) by reflexivity.
  assert (H2 : _func_created Cases.process = false) by reflexivity.
  assert (H3 : connections Cases.process !! "default" = Some Cases.library)
    by (vm_compute; reflexivity).
  assert (H4 : "public" ∈ Pg.schemas Cases.library) by apply list_elem_of_here.
  assert (H5 : ("public", "book") ∈ Pg.tables Cases.library) by apply list_elem_of_here.
  assert (H6 : ALL_EVENTS ≠ []) by discriminate.
  assert (H7 : NoDup ALL_EVENTS)
    by (apply (bool_decide_unpack (NoDup ALL_EVENTS)); vm_compute; exact I).
  assert (H8 : "replica" ≠ "default") by discriminate.
  assert (H9 : connections Cases.process !! "replica" = Some Sample.catalog)
    by (vm_compute; reflexivity).
  assert (H10 : ("public", "book") ∈ Pg.tables Sample.catalog) by apply list_elem_of_here.
  assert (H11 : ("public", Pg.emit_func_name "pg") ∉ Pg.functions Sample.catalog)
    by apply not_elem_of_nil.
  destruct (bind_table_on_another_database_raises "pg" true "book" ALL_EVENTS "default"
              "public" "book" ALL_EVENTS "replica" "public" Cases.process Cases.library
              Sample.catalog H1 H1 H2 H3 H4 H5 H6 H7 H8 H9 H10 H11 H6 H7)
    as (st0 & st1 & st2 & c2 & Hb0 & Hb1 & Hb2 & _ & Hc2 & Hnone & _).
  exists st0, st1, st2, c2. split; [exact Hb0|]. split; [exact Hb1|]. split; [exact Hb2|].
  split; [exact Hc2|exact Hnone].
Defined.

(** ** Installing the capture routine *)

(** C5. On a database that has the schema but not the staging log,
    [create_emit_func] returns after sending one statement, the
    [CREATE OR REPLACE FUNCTION] of the capture routine: it sends no
    [CREATE_STAGING_TABLE], the tables of the database are what they were,
    the staging log is still missing, and the routine it has just
    installed raises as soon as a trigger runs it. *)
Theorem create_emit_func_leaves_staging_log_out
    (PREFIX : string) (is_info : bool) (db schema : string)
    (st : Process) (c : Pg.Catalog) :
  connections st !! db = Some c →
  schema ∈ Pg.schemas c →
  Pg.has_table c schema (Pg.events_name PREFIX) = false →
  ∃ st' c',
    create_emit_func PREFIX is_info db schema st = (Ok (), st')
    ∧ journal st' = journal st ++ [mkAttempt db (Pg.CREATE_EMIT_FUNC PREFIX schema) true]
    ∧ connections st' !! db = Some c'
    ∧ (schema, Pg.emit_func_name PREFIX) ∈ Pg.functions c'
    ∧ Pg.tables c' = Pg.tables c
    ∧ Pg.has_table c' schema (Pg.events_name PREFIX) = false
    ∧ ∀ txid_current TG_OP TG_TABLE_NAME old new,
        Pg.emit_event PREFIX schema txid_current TG_OP TG_TABLE_NAME old new c'
        = Raise (ProgrammingError "relation does not exist").
Proof.
  intros Hc Hs Ht.
  pose proof (create_emit_func_run PREFIX is_info db schema st) as H. rewrite Hc in H.
  destruct H as (st' & Hrun & _ & Hc' & Hj & _).
  assert (Hex : ∃ c', Pg.exec (Pg.CREATE_EMIT_FUNC PREFIX schema) c = Ok c' ∧
                  Pg.tables c' = Pg.tables c ∧
                  (schema, Pg.emit_func_name PREFIX) ∈ Pg.functions c').
  { simpl. rewrite bool_decide_true by done. unfold Pg.has_function.
    case_bool_decide; eexists; (split; [done|]); simpl; split; try done.
    apply list_elem_of_here. }
  destruct Hex as (c' & Hex & Htb & Hfn). rewrite Hex in *.
  assert (Ht' : Pg.has_table c' schema (Pg.events_name PREFIX) = false).
  { unfold Pg.has_table in *. by rewrite Htb. }
  exists st', c'. repeat split; try done.
  - by rewrite Hc', lookup_insert_eq.
  - intros. unfold Pg.emit_event. by rewrite Ht'.
Qed.

Lemma create_emit_func_leaves_staging_log_out_witness :
  ∃ st' c',
    create_emit_func "pg" true "default" "public" Sample.process = (Ok (), st')
    ∧ connections st' !! "default" = Some c'
    ∧ Pg.tables c' = [("public", "book")]
    ∧ Pg.emit_event "pg" "public" 1 INSERT "book" JNull (Sample.row 1) c'
      = Raise (ProgrammingError "relation does not exist").
Proof.
  destruct (create_emit_func_leaves_staging_log_out "pg" true "default" "public"
              Sample.process Sample.catalog)
    as (st' & c' & Hrun & _ & Hc' & _ & Htb & _ & Hemit).
  - reflexivity.
  - simpl. apply list_elem_of_here.
  - vm_compute. reflexivity.
  - exists st', c'. split; [exact Hrun|]. split; [exact Hc'|]. split; [exact Htb|].
    apply Hemit.
Defined.

(** ** The listener: dispatch, decoding and the loop *)

Lemma EventKind_call_unknown s :
  s ∉ ["INSERT"; "UPDATE"; "DELETE"] →
  EventKind_call (JStr s) = Raise (ValueError "is not a valid EventKind").
Proof.
  intros Hs. unfold EventKind_call. cbn [List.find value].
  destruct (String.eqb_spec "INSERT" s) as [<-|_]; [set_solver|].
  destruct (String.eqb_spec "UPDATE" s) as [<-|_]; [set_solver|].
  destruct (String.eqb_spec "DELETE" s) as [<-|_]; [set_solver|].
  done.
Qed.

Section listen_claims.
Context (PREFIX : string) (is_info : bool).
Context (json_loads : string → string + json) (get_models : list Model).

(** C1. For an event whose operation is [UPDATE] the dispatcher sends the
    generic signal and the insert-or-update signal and then stops: the
    branch that sends the update-only signal hangs as an [elif] under the
    test of [is_save], which is true for every update, so it is not
    taken. *)
Theorem dispatch_update_skips_update_group (event : Event) (st : Process) :
  operation event = UPDATE →
  hashable (table event) = true →
  ∃ sender st',
    dispatch is_info get_models event st = (Ok (), st')
    ∧ sent st' = sent st ++ [mkSend pgsignals_event sender event;
                             mkSend pgsignals_insert_or_update_event sender event].
Proof.
  intros Hop Hh. rewrite dispatch_unfold.
  destruct (table_to_model_run get_models (table event) st Hh)
    as (sender & st1 & -> & _ & Hsent & _).
  eexists sender, _. split; [reflexivity|]. simpl.
  unfold sends_for. by rewrite Hop, Hsent.
Qed.

(** C2. A payload that is JSON and whose operation is a string other than
    [INSERT], [UPDATE] and [DELETE] makes the loop body raise [ValueError]:
    the conversion stands inside the [try], whose handler catches
    [json.JSONDecodeError] only. Nothing is logged, and the exception
    leaves the drain loop and the generator loop, so neither the
    notifications that arrived before it in the turn nor those of any
    later turn are handled. *)
Theorem handle_notify_unknown_operation_raises
    (notify : Notify) (items : list (string * json)) (s : string) (st : Process) :
  json_loads (payload notify) = inr (JObj items) →
  dict_get "operation" items = Some (JStr s) →
  s ∉ ["INSERT"; "UPDATE"; "DELETE"] →
  handle_notify is_info json_loads get_models notify st
  = (Raise (ValueError "is not a valid EventKind"), st)
  ∧ (∀ earlier,
       drain is_info json_loads get_models (length (earlier ++ [notify]))
             (earlier ++ [notify]) st
       = (Raise (ValueError "is not a valid EventKind"), st))
  ∧ (∀ v started_at wk later earlier,
       namespace st !! "stop_secs" = Some v → truthy v = false →
       wk_ready wk = true → wk_polled wk = earlier ++ [notify] →
       iter_notifies is_info json_loads get_models started_at (wk :: later) [] st
       = (Raise (ValueError "is not a valid EventKind"), st)).
Proof.
  intros Hl Hop Hs.
  assert (Hn : handle_notify is_info json_loads get_models notify st
               = (Raise (ValueError "is not a valid EventKind"), st)).
  { unfold handle_notify. rewrite Hl. unfold getitem. rewrite Hop.
    unfold mbind, M_bind, lift. by rewrite (EventKind_call_unknown s Hs). }
  assert (Hd : ∀ earlier,
             drain is_info json_loads get_models (length (earlier ++ [notify]))
                   (earlier ++ [notify]) st
             = (Raise (ValueError "is not a valid EventKind"), st)).
  { intros earlier. rewrite drain_reverse, reverse_snoc. simpl.
    unfold mbind, M_bind. by rewrite Hn. }
  split; [done|]. split; [done|].
  intros v started_at wk later earlier Hv Ht Hr Hp. simpl.
  unfold mbind at 1, M_bind at 1, load_global. rewrite Hv, Ht.
  unfold mbind at 1, M_bind at 1. simpl. rewrite Hr, Hp. simpl.
  unfold mbind, M_bind. by rewrite Hd.
Qed.

Lemma iter_notifies_unbound started_at wakes notifies st :
  namespace st !! "stop_secs" = None →
  iter_notifies is_info json_loads get_models started_at wakes notifies st
  = (Raise (NameError "stop_secs"), st).
Proof.
  intros Hn.
  destruct wakes; simpl; unfold mbind, M_bind, load_global; by rewrite Hn.
Qed.

(** C3. As the module stands, [listen] never reads [listen_timeout]: the
    generator tests a name, [stop_secs], that nothing binds, so its first
    turn raises [NameError] whatever the timeout, before any wait and
    before any notification is handled. *)
Theorem listen_raises_NameError
    (db schema : string) (poll_timeout : Z) (listen_timeout events_limit : option Z)
    (w : World) (st : Process) (c : Pg.Catalog) :
  namespace st !! "stop_secs" = None →
  connections st !! db = Some c →
  ∃ st',
    listen PREFIX is_info json_loads get_models db schema poll_timeout
           listen_timeout events_limit w st
    = (Raise (NameError "stop_secs"), st')
    ∧ sent st' = sent st ∧ log st' = log st
    ∧ journal st' = journal st ++ [mkAttempt db (Pg.LISTEN PREFIX) true].
Proof.
  intros Hn Hc. unfold listen, mbind, M_bind, cursor_execute. rewrite Hc. simpl.
  eexists. split; [apply iter_notifies_unbound; exact Hn|done].
Qed.

End listen_claims.

Lemma dispatch_update_skips_update_group_witness :
  ∃ sender st',
    dispatch false Sample.models Sample.book_update Sample.process = (Ok (), st')
    ∧ sent st' = [mkSend pgsignals_event sender Sample.book_update;
                  mkSend pgsignals_insert_or_update_event sender Sample.book_update].
Proof.
  destruct (dispatch_update_skips_update_group false Sample.models
              Sample.book_update Sample.process)
    as (sender & st' & Hrun & Hsent).
  - reflexivity.
  - reflexivity.
  - exists sender, st'. split; [exact Hrun|exact Hsent].
Defined.

Lemma handle_notify_unknown_operation_raises_witness :
  handle_notify false Sample.loads Sample.models (Sample.notify Sample.foo_4) Sample.patched
  = (Raise (ValueError "is not a valid EventKind"), Sample.patched)
  ∧ (listen "pg" false Sample.loads Sample.models "default" "public" 5 None None
            Sample.foo_between Sample.patched).1
    = Raise (ValueError "is not a valid EventKind")
  ∧ sent (listen "pg" false Sample.loads Sample.models "default" "public" 5 None None
                 Sample.foo_between Sample.patched).2 = [].
Proof.
  split; [|split; vm_compute; reflexivity].
  refine (proj1 (handle_notify_unknown_operation_raises false Sample.loads Sample.models
                   (Sample.notify Sample.foo_4)
                   [("txid", JInt 4); ("operation", JStr "FOO"); ("table", JStr "book");
                    ("row_before", JNull); ("row_after", JNull)]
                   "FOO" Sample.patched _ _ _)).
  - vm_compute. reflexivity.
  - reflexivity.
  - apply (bool_decide_unpack ("FOO" ∉ ["INSERT"; "UPDATE"; "DELETE"])).
    vm_compute. exact I.
Defined.

Lemma listen_raises_NameError_witness :
  ∃ st',
    listen "pg" false Sample.loads Sample.models "default" "public" 5 (Some 1) None
           Sample.two_inserts Sample.process
    = (Raise (NameError "stop_secs"), st')
    ∧ sent st' = [].
Proof.
  destruct (listen_raises_NameError "pg" false Sample.loads Sample.models
              "default" "public" 5 (Some 1) None Sample.two_inserts Sample.process
              Sample.catalog)
    as (st' & Hrun & Hsent & _).
  - reflexivity.
  - reflexivity.
  - exists st'. split; [exact Hrun|exact Hsent].
Defined.

(** C4. [listen] does not read [events_limit]: two calls that differ in it
    alone are the same computation. With [events_limit=1] and two
    notifications waiting, a process whose namespace binds [stop_secs]
    (to [None]) dispatches both events and goes on listening; the module
    as shipped raises [NameError] at its first turn instead, for the same
    arguments. *)
Theorem listen_does_not_read_events_limit :
  (∀ PREFIX is_info json_loads get_models db schema poll_timeout listen_timeout
     (events_limit events_limit' : option Z) w st,
     listen PREFIX is_info json_loads get_models db schema poll_timeout
            listen_timeout events_limit w st
     = listen PREFIX is_info json_loads get_models db schema poll_timeout
              listen_timeout events_limit' w st)
  ∧ (listen "pg" false Sample.loads Sample.models "default" "public" 5 None (Some 1)
            Sample.two_inserts Sample.patched).1 = Ok Waiting
  ∧ Sample.sent_txids
      (listen "pg" false Sample.loads Sample.models "default" "public" 5 None (Some 1)
              Sample.two_inserts Sample.patched).2
    = [(pgsignals_event, JInt 2); (pgsignals_insert_event, JInt 2);
       (pgsignals_insert_or_update_event, JInt 2);
       (pgsignals_event, JInt 1); (pgsignals_insert_event, JInt 1);
       (pgsignals_insert_or_update_event, JInt 1)]
  ∧ (listen "pg" false Sample.loads Sample.models "default" "public" 5 None (Some 1)
            Sample.two_inserts Sample.process).1 = Raise (NameError "stop_secs").
Proof.
  split; [reflexivity|]. repeat split; vm_compute; reflexivity.
Qed.

(** C7. The drain loop takes the notifications with [pop()], from the end
    of [conn.notifies]: a batch is handled from the notification that
    arrived last to the one that arrived first. When an insert and then
    an update of the same row arrive in one turn, the update is
    dispatched before the insert. *)
Theorem drain_hands_newest_first :
  (∀ is_info json_loads get_models (batch : list Notify) st,
     drain is_info json_loads get_models (length batch) batch st
     = match handle_each is_info json_loads get_models (reverse batch) st with
       | (Ok _, st') => (Ok [], st')
       | (Raise e, st') => (Raise e, st')
       end)
  ∧ Sample.sent_txids
      (drain false Sample.loads Sample.models 2
             [Sample.notify Sample.insert_1; Sample.notify Sample.update_3]
             Sample.process).2
    = [(pgsignals_event, JInt 3); (pgsignals_insert_or_update_event, JInt 3);
       (pgsignals_event, JInt 1); (pgsignals_insert_event, JInt 1);
       (pgsignals_insert_or_update_event, JInt 1)]
  ∧ Sample.sent_txids
      (listen "pg" false Sample.loads Sample.models "default" "public" 5 None None
              Sample.insert_then_update Sample.patched).2
    = [(pgsignals_event, JInt 3); (pgsignals_insert_or_update_event, JInt 3);
       (pgsignals_event, JInt 1); (pgsignals_insert_event, JInt 1);
       (pgsignals_insert_or_update_event, JInt 1)].
Proof.
  split; [intros; apply drain_reverse|]. split; vm_compute; reflexivity.
Qed.

(** ** Events of a table that no model has *)

Section cache.
Context (is_info : bool) (json_loads : string → string + json) (get_models : list Model).

(** The cache is sound when the module has just been imported, and the
    listener keeps it so. *)
Lemma dispatch_cache_sound ev st :
  cache_sound get_models (lru st) →
  cache_sound get_models (lru (dispatch is_info get_models ev st).2).
Proof.
  intros Hs. rewrite dispatch_unfold.
  destruct (_table_to_model get_models (table ev) st) as [[r|e] st1] eqn:Hrun.
  - simpl. by destruct (table_to_model_sound get_models (table ev) st r st1 Hs Hrun).
  - simpl. unfold _table_to_model in Hrun.
    destruct (hashable (table ev)) eqn:Hh; simpl in Hrun.
    + destruct (table_to_model_run get_models (table ev) st Hh) as (r & st' & Hrun' & _).
      unfold _table_to_model in Hrun'. rewrite Hh in Hrun'. simpl in Hrun'. congruence.
    + by injection Hrun as _ <-.
Qed.

Lemma handle_notify_cache_sound notify st :
  cache_sound get_models (lru st) →
  cache_sound get_models (lru (handle_notify is_info json_loads get_models notify st).2).
Proof.
  intros Hs. unfold handle_notify.
  destruct (json_loads (payload notify)) as [e|_notify]; [done|].
  unfold mbind, M_bind, lift, raise.
  destruct (getitem _notify "operation") as [v|e]; [|done].
  destruct (EventKind_call v) as [op|e]; [|done].
  destruct _notify; try done.
  destruct (Event_init items op) as [ev|e]; [|done].
  by apply dispatch_cache_sound.
Qed.

Lemma drain_cache_sound fuel notifies st :
  cache_sound get_models (lru st) →
  cache_sound get_models (lru (drain is_info json_loads get_models fuel notifies st).2).
Proof.
  revert notifies st. induction fuel as [|fuel IH]; intros notifies st Hs; [done|].
  simpl. destruct (pop notifies) as [[notify rest]|]; [|done].
  unfold mbind, M_bind.
  pose proof (handle_notify_cache_sound notify st Hs) as H.
  destruct (handle_notify _ _ _ notify st) as [[[]|e] st1]; [|done].
  by apply IH.
Qed.

Lemma iter_notifies_cache_sound started_at wakes notifies st :
  cache_sound get_models (lru st) →
  cache_sound get_models
    (lru (iter_notifies is_info json_loads get_models started_at wakes notifies st).2).
Proof.
  revert notifies st. induction wakes as [|wk rest IH]; intros notifies st Hs.
  - simpl. unfold mbind, M_bind, load_global.
    by destruct (namespace st !! "stop_secs").
  - simpl. unfold mbind at 1, M_bind at 1, load_global.
    destruct (namespace st !! "stop_secs") as [v|]; [|done].
    unfold mbind at 1, M_bind at 1.
    assert (Hstop : ∃ r,
              (if truthy v
               then lift (int_ge (timedelta_seconds (wk_now wk - started_at)) v)
               else mret false) st = (r, st)).
    { destruct (truthy v); eauto. }
    destruct Hstop as [r ->].
    destruct r as [[]|e]; [done| |done].
    destruct (wk_ready wk); [|by apply IH].
    unfold mbind, M_bind.
    pose proof (drain_cache_sound (length (notifies ++ wk_polled wk))
                  (notifies ++ wk_polled wk) st Hs) as H.
    destruct (drain _ _ _ _ _ st) as [[left|e] st1]; [|done].
    by apply IH.
Qed.

End cache.

Lemma find_db_table_none (get_models : list Model) (t : string) :
  (∀ m, m ∈ get_models → db_table m ≠ t) →
  List.find (db_table_eq (JStr t)) get_models = None.
Proof.
  induction get_models as [|m ms IH]; intros H; [done|].
  simpl. destruct (String.eqb_spec (db_table m) t) as [Heq|_].
  - exfalso. apply (H m); [left|done].
  - apply IH. intros m' Hm'. apply H. by right.
Qed.

Lemma groups_beside_update_only_sent (sender : option Model) (event : Event) (g : Signal) :
  g ∈ groups_beside_update_only (operation event) →
  mkSend g sender event ∈ sends_for sender event.
Proof.
  unfold groups_beside_update_only, sends_for, is_create, is_save, is_create,
    is_update, is_delete.
  destruct (operation event); simpl; intros H;
    repeat (apply elem_of_cons in H as [->|H]; [set_solver|]);
    by apply elem_of_nil in H.
Qed.

(** C9 (as amended). For an event whose table is a name that no model
    has, sender resolution returns the absent value and raises nothing;
    [log.error] is called when the name is not in the cache of
    [_table_to_model], and not when the miss is already cached. Dispatch
    goes on with the absent sender: every send carries this event and no
    sender, the generic group is sent to, and so are the create,
    insert-or-update and delete groups when [is_create], [is_save] and
    [is_delete] hold (the update-only group is not spoken of here). The
    call returns, and the cache stays sound. *)
Theorem dispatch_unknown_table_absent_sender
    (is_info : bool) (get_models : list Model) (ev : Event) (t : string)
    (st : Process) :
  table ev = JStr t →
  (∀ m, m ∈ get_models → db_table m ≠ t) →
  cache_sound get_models (lru st) →
  ∃ st1 st' sends,
    _table_to_model get_models (table ev) st = (Ok None, st1)
    ∧ dispatch is_info get_models ev st = (Ok (), st')
    ∧ sent st' = sent st ++ sends
    ∧ Forall (λ s, sender s = None ∧ event s = ev) sends
    ∧ (∀ g, g ∈ groups_beside_update_only (operation ev) → mkSend g None ev ∈ sends)
    ∧ log st' = log st
        ++ match cache_take (JStr t) (lru st) with
           | None => [(ERROR, MsgCannotFoundModel (JStr t))]
           | Some _ => []
           end
        ++ (if is_info
            then [(INFO, MsgEmitSignal (JStr t) (name (operation ev)) None)]
            else [])
    ∧ cache_sound get_models (lru st').
Proof.
  intros Ht Hnone Hs.
  pose proof (find_db_table_none get_models t Hnone) as Hfind.
  destruct (table_to_model_run get_models (table ev) st) as (r & st1 & Hrun & _ & Hsent & Hcase).
  { by rewrite Ht. }
  destruct (table_to_model_sound get_models (table ev) st r st1 Hs Hrun) as [Hr Hs1].
  rewrite Ht, Hfind in Hr. subst r.
  exists st1. rewrite dispatch_unfold, Hrun. eexists _, (sends_for None ev).
  split; [done|]. split; [reflexivity|]. simpl. rewrite Hsent.
  split; [done|]. split; [|split; [|split; [|done]]].
  - unfold sends_for. by destruct (operation ev); repeat constructor.
  - intros g Hg. by apply groups_beside_update_only_sent.
  - rewrite Ht in *.
    destruct (cache_take (JStr t) (lru st)) as [[v rest]|].
    + by destruct Hcase as (_ & -> & _).
    + destruct Hcase as (_ & -> & _). by rewrite <- app_assoc.
Qed.

Lemma dispatch_unknown_table_absent_sender_witness :
  ∃ st',
    dispatch false Sample.models Sample.ghost_insert Sample.process = (Ok (), st')
    ∧ Forall (λ s, sender s = None) (sent st')
    ∧ log st' = [(ERROR, MsgCannotFoundModel (JStr "ghost"))].
Proof.
  destruct (dispatch_unknown_table_absent_sender false Sample.models
              Sample.ghost_insert "ghost" Sample.process)
    as (st1 & st' & sends & _ & Hrun & Hsent & Hall & _ & Hlog & _).
  - reflexivity.
  - intros m Hm. apply list_elem_of_singleton in Hm as ->. discriminate.
  - intros k v Hin. by apply elem_of_nil in Hin.
  - exists st'. split; [exact Hrun|]. split.
    + rewrite Hsent. simpl. eapply Forall_impl; [exact Hall|]. by intros s [? _].
    + exact Hlog.
Defined.

(** C9 as it was stated fails: once the miss for a table is in the cache,
    an event of that table is dispatched, with the absent sender, and
    [log.error] is not called. *)
Lemma dispatch_cached_miss_logs_nothing :
  List.find (db_table_eq (table Sample.ghost_insert)) Sample.models = None
  ∧ log Sample.after_ghost = [(ERROR, MsgCannotFoundModel (JStr "ghost"))]
  ∧ (dispatch false Sample.models Sample.ghost_insert Sample.after_ghost).1 = Ok ()
  ∧ log (dispatch false Sample.models Sample.ghost_insert Sample.after_ghost).2
    = log Sample.after_ghost
  ∧ Sample.sent_txids (dispatch false Sample.models Sample.ghost_insert Sample.after_ghost).2
    = Sample.sent_txids Sample.after_ghost
      ++ [(pgsignals_event, JInt 5); (pgsignals_insert_event, JInt 5);
          (pgsignals_insert_or_update_event, JInt 5)].
Proof. repeat split; vm_compute; reflexivity. Qed.

Lemma func_created_lifecycle_witness :
  _func_created (unbind_table "pg" true "book" "default" "public" Sample.bound).2 = true
  ∧ (length (filter (λ a, at_ok a = true) (emit_attempts (journal Sample.bound))) ≤ 1)%nat.
Proof.
  destruct (func_created_lifecycle "pg" "public" "default" true Sample.loads Sample.models)
    as (_ & _ & Hkeep & Hhist & _).
  assert (Hset : _func_created Sample.bound = true) by (vm_compute; reflexivity).
  destruct (Hkeep Sample.bound Hset) as (_ & _ & Hunbind & _).
  split; [exact (Hunbind "book" "default" "public")|].
  exact (proj2 (Hhist Sample.calls Sample.dbs)).
Defined.

(** C8 as it was stated fails in its last part: when an installation
    raises, the next [bind_table] calls [create_emit_func] again. Of the
    three calls of [Sample.calls] the first two each send the
    [CREATE OR REPLACE FUNCTION] statement; the third does not. *)
Lemma create_emit_func_called_again_after_failure :
  emit_attempts (journal Sample.bound)
  = [mkAttempt "default" (Pg.CREATE_EMIT_FUNC "pg" "nosuch") false;
     mkAttempt "default" (Pg.CREATE_EMIT_FUNC "pg" "public") true]
  ∧ length (emit_attempts (journal Sample.bound)) = 2%nat
  ∧ _func_created
      (bind_table "pg" true "book" ALL_EVENTS "default" "nosuch" Sample.process).2 = false.
Proof. repeat split; vm_compute; reflexivity. Qed.

(** ** Further properties of the module *)

Lemma filter_neg_id {A} (f : A → bool) (l : list A) :
  filter (λ x, f x) l = [] → filter (λ x, ¬ f x) l = l.
Proof.
  induction l as [|x l IH]; [done|].
  rewrite !filter_cons. destruct (f x) eqn:Hx.
  - rewrite decide_True by done. discriminate.
  - rewrite decide_False, decide_True by (by intros []). intros H. by rewrite IH.
Qed.

(** [unbind_table] on a table that has no capture trigger returns without
    an error and leaves the triggers of the database as they are (the
    names being plain, so that the text is the [DROP TRIGGER IF EXISTS]
    of this table). *)
Theorem unbind_table_without_trigger
    (PREFIX : string) (is_info : bool) (table db schema : string)
    (st : Process) (c : Pg.Catalog) :
  Pg.well_named (Pg.DROP_TRIGGER PREFIX schema table) = true →
  connections st !! db = Some c →
  Pg.capture_triggers PREFIX schema table c = [] →
  ∃ st' c',
    unbind_table PREFIX is_info table db schema st = (Ok (), st')
    ∧ connections st' !! db = Some c'
    ∧ Pg.triggers c' = Pg.triggers c.
Proof.
  intros _ Hc Hnone.
  pose proof (unbind_table_run PREFIX is_info table db schema st) as Hu. rewrite Hc in Hu.
  destruct Hu as (st' & Hrun & _ & Hc' & _).
  exists st', (Pg.drop_trigger PREFIX schema table c). split; [done|]. split.
  - by rewrite Hc', lookup_insert_eq.
  - unfold Pg.drop_trigger. simpl. by apply filter_neg_id.
Qed.

Lemma unbind_table_without_trigger_witness :
  ∃ st' c',
    unbind_table "pg" true "book" "default" "public" Sample.process = (Ok (), st')
    ∧ connections st' !! "default" = Some c'
    ∧ Pg.triggers c' = [].
Proof.
  destruct (unbind_table_without_trigger "pg" true "book" "default" "public"
              Sample.process Sample.catalog) as (st' & c' & Hrun & Hc' & Htr).
  - reflexivity.
  - reflexivity.
  - reflexivity.
  - exists st', c'. split; [exact Hrun|]. split; [exact Hc'|exact Htr].
Defined.

(** A payload that [json.loads] rejects is logged with [log.error] and
    skipped: the loop body returns, nothing is sent, and the drain loop
    goes on with the notifications left in the batch. *)
Theorem handle_notify_bad_json_skipped
    (is_info : bool) (json_loads : string → string + json) (get_models : list Model)
    (notify : Notify) (e : string) (st : Process) :
  json_loads (payload notify) = inl e →
  handle_notify is_info json_loads get_models notify st
  = log_call ERROR (MsgDecodeError e) st
  ∧ (handle_notify is_info json_loads get_models notify st).1 = Ok ()
  ∧ sent (handle_notify is_info json_loads get_models notify st).2 = sent st
  ∧ ∀ earlier,
      drain is_info json_loads get_models (length (earlier ++ [notify]))
            (earlier ++ [notify]) st
      = drain is_info json_loads get_models (length earlier) earlier
              (log_call ERROR (MsgDecodeError e) st).2.
Proof.
  intros Hl.
  assert (Hn : handle_notify is_info json_loads get_models notify st
               = log_call ERROR (MsgDecodeError e) st).
  { unfold handle_notify. by rewrite Hl. }
  rewrite Hn. repeat split.
  intros earlier. rewrite length_app. simpl.
  replace (length earlier + 1)%nat with (S (length earlier)) by lia. simpl.
  rewrite pop_snoc. unfold mbind, M_bind. by rewrite Hn.
Qed.

Lemma handle_notify_bad_json_skipped_witness :
  handle_notify false Sample.loads Sample.models (mkNotify 4242 "pg__events" "") Sample.process
  = log_call ERROR (MsgDecodeError "Expecting value: line 1 column 1 (char 0)")
             Sample.process.
Proof.
  refine (proj1 (handle_notify_bad_json_skipped false Sample.loads Sample.models
                   (mkNotify 4242 "pg__events" "")
                   "Expecting value: line 1 column 1 (char 0)" Sample.process _)).
  vm_compute. reflexivity.
Defined.

(** For an insert the dispatcher sends the generic, the create and the
    insert-or-update signal, in this order; for a delete the generic and
    the delete signal. *)
Theorem dispatch_insert_and_delete
    (is_info : bool) (get_models : list Model) (ev : Event) (st : Process) :
  hashable (table ev) = true →
  ∃ sender st',
    dispatch is_info get_models ev st = (Ok (), st')
    ∧ (operation ev = INSERT →
       sent st' = sent st ++ [mkSend pgsignals_event sender ev;
                              mkSend pgsignals_insert_event sender ev;
                              mkSend pgsignals_insert_or_update_event sender ev])
    ∧ (operation ev = DELETE →
       sent st' = sent st ++ [mkSend pgsignals_event sender ev;
                              mkSend pgsignals_delete_event sender ev]).
Proof.
  intros Hh. rewrite dispatch_unfold.
  destruct (table_to_model_run get_models (table ev) st Hh)
    as (sender & st1 & -> & _ & Hsent & _).
  eexists sender, _. split; [reflexivity|]. simpl. unfold sends_for. rewrite Hsent.
  split; intros ->; done.
Qed.

Lemma dispatch_insert_and_delete_witness :
  ∃ sender st',
    dispatch false Sample.models Sample.ghost_insert Sample.process = (Ok (), st')
    ∧ sent st' = [mkSend pgsignals_event sender Sample.ghost_insert;
                  mkSend pgsignals_insert_event sender Sample.ghost_insert;
                  mkSend pgsignals_insert_or_update_event sender Sample.ghost_insert].
Proof.
  destruct (dispatch_insert_and_delete false Sample.models Sample.ghost_insert
              Sample.process) as (sender & st' & Hrun & Hins & _).
  - reflexivity.
  - exists sender, st'. split; [exact Hrun|]. apply Hins. reflexivity.
Defined.

(** The capture routine notifies the channel with an empty payload, and
    the loop body decodes the payload of the notification: whenever
    [json.loads] rejects the empty text, a notification made by the
    routine is logged as a decode error and no signal is sent for it. *)
Theorem emitted_notification_is_not_dispatched
    (PREFIX schema : string) (is_info : bool)
    (json_loads : string → string + json) (get_models : list Model)
    (txid_current : Z) (TG_OP : EventKind) (TG_TABLE_NAME : string) (old new : json)
    (c c' : Pg.Catalog) (e : string) (pid : Z) (st : Process) :
  json_loads "" = inl e →
  Pg.emit_event PREFIX schema txid_current TG_OP TG_TABLE_NAME old new c = Ok c' →
  ∃ chan,
    Pg.notified c' = Pg.notified c ++ [(chan, "")]
    ∧ handle_notify is_info json_loads get_models (mkNotify pid chan "") st
      = log_call ERROR (MsgDecodeError e) st
    ∧ sent (handle_notify is_info json_loads get_models (mkNotify pid chan "") st).2
      = sent st.
Proof.
  intros Hl Hemit. unfold Pg.emit_event in Hemit.
  destruct (Pg.has_table c schema (Pg.events_name PREFIX)); [|done].
  injection Hemit as <-. exists (Pg.events_name PREFIX). split; [done|].
  unfold handle_notify. simpl. by rewrite Hl.
Qed.

Lemma emitted_notification_is_not_dispatched_witness :
  ∃ chan,
    handle_notify false Sample.loads Sample.models (mkNotify 4242 chan "") Sample.process
    = log_call ERROR (MsgDecodeError "Expecting value: line 1 column 1 (char 0)")
               Sample.process.
Proof.
  destruct (emitted_notification_is_not_dispatched "pg" "public" false Sample.loads
              Sample.models 1 INSERT "book" JNull (Sample.row 1)
              (Pg.mkCatalog ["public"] [("public", "book"); ("public", "pg__events")]
                            [] [] [] [])
              (Pg.mkCatalog ["public"] [("public", "book"); ("public", "pg__events")]
                            [] []
                            [(("public", "pg__events"),
                              JObj [("txid", JInt 1); ("operation", JStr "INSERT");
                                    ("table", JStr "book"); ("row_before", JNull);
                                    ("row_after", Sample.row 1)])]
                            [("pg__events", "")])
              "Expecting value: line 1 column 1 (char 0)" 4242 Sample.process)
    as (chan & _ & Hrun & _).
  - vm_compute. reflexivity.
  - vm_compute. reflexivity.
  - exists chan. exact Hrun.
Defined.

(** ** The members of [EventKind] *)

Lemma EventKind_call_value k : EventKind_call (JStr (value k)) = Ok k.
Proof. by destruct k. Qed.

Lemma EventKind_call_inv v k : EventKind_call v = Ok k → v = JStr (value k).
Proof.
  destruct v as [| | |s| |]; try done. unfold EventKind_call. cbn [List.find value].
  destruct (String.eqb_spec "INSERT" s) as [<-|_]; [by intros [= <-]|].
  destruct (String.eqb_spec "UPDATE" s) as [<-|_]; [by intros [= <-]|].
  destruct (String.eqb_spec "DELETE" s) as [<-|_]; [by intros [= <-]|].
  done.
Qed.

(** Exactly one of [is_create], [is_update] and [is_delete] holds of a
    member, and [is_save] holds exactly when [is_delete] does not.
    [EventKind(k.value)] is [k], and [EventKind(v)] returns a member only
    for the value of that member. *)
Theorem EventKind_members (k : EventKind) :
  (is_create k && negb (is_update k) && negb (is_delete k)
   || negb (is_create k) && is_update k && negb (is_delete k)
   || negb (is_create k) && negb (is_update k) && is_delete k) = true
  ∧ is_save k = negb (is_delete k)
  ∧ EventKind_call (JStr (value k)) = Ok k
  ∧ (∀ v k', EventKind_call v = Ok k' → v = JStr (value k')).
Proof.
  split; [by destruct k|]. split; [by destruct k|].
  split; [apply EventKind_call_value|]. apply EventKind_call_inv.
Qed.

(** ** From the capture routine to the event *)

(** The record the capture routine writes to the staging log has the
    keys the loop body and [Event] read: when a notification carries its
    text as payload, the loop body decodes it to the event of the row
    change (transaction, operation, table, row before and after) and
    dispatches that event. *)
Theorem emitted_payload_decodes
    (PREFIX schema : string) (is_info : bool)
    (json_loads : string → string + json) (get_models : list Model)
    (txid_current : Z) (TG_OP : EventKind) (TG_TABLE_NAME : string) (old new : json)
    (c c' : Pg.Catalog) (record : json) (notify : Notify) (st : Process) :
  Pg.emit_event PREFIX schema txid_current TG_OP TG_TABLE_NAME old new c = Ok c' →
  last (Pg.rows c') = Some ((schema, Pg.events_name PREFIX), record) →
  json_loads (payload notify) = inr record →
  Pg.rows c' = Pg.rows c ++ [((schema, Pg.events_name PREFIX), record)]
  ∧ handle_notify is_info json_loads get_models notify st
    = dispatch is_info get_models
        (mkEvent (JInt txid_current) TG_OP (JStr TG_TABLE_NAME) old new) st.
Proof.
  unfold Pg.emit_event. destruct (Pg.has_table c schema (Pg.events_name PREFIX)); [|done].
  intros [= <-]. simpl. rewrite last_snoc. intros [= <-] Hl. split; [done|].
  unfold handle_notify. rewrite Hl.
  unfold mbind at 1, M_bind at 1, lift. cbn [getitem dict_get String.eqb Ascii.eqb Bool.eqb].
  unfold mbind at 1, M_bind at 1. rewrite EventKind_call_value.
  unfold mbind at 1, M_bind at 1. reflexivity.
Qed.

Lemma emitted_payload_decodes_witness :
  Pg.rows Cases.staged_after_insert
  = Pg.rows Cases.staged ++ [(("public", Pg.events_name "pg"), Sample.insert_1)]
  ∧ handle_notify false Sample.loads Sample.models (Sample.notify Sample.insert_1)
                  Sample.process
    = dispatch false Sample.models
        (mkEvent (JInt 1) INSERT (JStr "book") JNull (Sample.row 1)) Sample.process.
Proof.
  assert (H1 : Pg.emit_event "pg" "public" 1 INSERT "book" JNull (Sample.row 1) Cases.staged
               = Ok Cases.staged_after_insert) by (vm_compute; reflexivity).
  assert (H2 : last (Pg.rows Cases.staged_after_insert)
               = Some (("public", Pg.events_name "pg"), Sample.insert_1))
    by (vm_compute; reflexivity).
  assert (H3 : Sample.loads (payload (Sample.notify Sample.insert_1)) = inr Sample.insert_1)
    by (vm_compute; reflexivity).
  exact (emitted_payload_decodes "pg" "public" false Sample.loads Sample.models
           1 INSERT "book" JNull (Sample.row 1) Cases.staged Cases.staged_after_insert
           Sample.insert_1 (Sample.notify Sample.insert_1) Sample.process H1 H2 H3).
Defined.

(** ** Payloads that decode to something else than a record *)

Lemma Event_init_missing items op f :
  f ∈ ["txid"; "table"; "row_before"; "row_after"] →
  dict_get f items = None →
  ∃ what, Event_init items op = Raise (TypeError what).
Proof.
  intros Hf Hnone. unfold Event_init.
  destruct (forallb _ _); [|eauto].
  repeat (apply elem_of_cons in Hf as [->|Hf]); [| | | |by apply elem_of_nil in Hf];
    rewrite Hnone; repeat case_match; eauto.
Qed.

Lemma Event_init_unexpected items op k :
  k ∈ dict_keys items → k ∉ Event_fields →
  ∃ what, Event_init items op = Raise (TypeError what).
Proof.
  intros Hk Hn. unfold Event_init.
  destruct (forallb _ _) eqn:Hall; [|eauto].
  exfalso. rewrite forallb_forall in Hall.
  specialize (Hall k). rewrite <- list_elem_of_In in Hall.
  apply Hall in Hk. by apply bool_decide_eq_true in Hk.
Qed.

(** The handler of the loop body names [json.JSONDecodeError] only. A
    payload that is JSON but not a record of the capture routine makes
    the loop body raise, which ends [listen]: [TypeError] when it is not
    an object, [KeyError] when it has no [operation], [TypeError] from
    [Event] when a field is missing or a key is not a field, and
    [TypeError] from the cache of [_table_to_model] when the table is a
    list or an object. Nothing is sent or logged for it. *)
Theorem handle_notify_malformed_raises
    (is_info : bool) (json_loads : string → string + json) (get_models : list Model)
    (notify : Notify) (j : json) (st : Process) :
  json_loads (payload notify) = inr j →
  (is_object j = false →
     ∃ what, handle_notify is_info json_loads get_models notify st
             = (Raise (TypeError what), st))
  ∧ (∀ items, j = JObj items → dict_get "operation" items = None →
       handle_notify is_info json_loads get_models notify st
       = (Raise (KeyError "operation"), st))
  ∧ (∀ items v op f, j = JObj items → dict_get "operation" items = Some v →
       EventKind_call v = Ok op →
       f ∈ ["txid"; "table"; "row_before"; "row_after"] → dict_get f items = None →
       ∃ what, handle_notify is_info json_loads get_models notify st
               = (Raise (TypeError what), st))
  ∧ (∀ items v op k, j = JObj items → dict_get "operation" items = Some v →
       EventKind_call v = Ok op →
       k ∈ dict_keys items → k ∉ Event_fields →
       ∃ what, handle_notify is_info json_loads get_models notify st
               = (Raise (TypeError what), st))
  ∧ (∀ items v op ev, j = JObj items → dict_get "operation" items = Some v →
       EventKind_call v = Ok op → Event_init items op = Ok ev →
       hashable (table ev) = false →
       handle_notify is_info json_loads get_models notify st
       = (Raise (TypeError "unhashable type"), st)).
Proof.
  intros Hl. unfold handle_notify. rewrite Hl. repeat split.
  - intros Hobj. destruct j; try done; simpl; eauto.
  - intros items -> Hop. simpl. by rewrite Hop.
  - intros items v op f -> Hop Hk Hf Hnone. simpl. rewrite Hop.
    unfold mbind, M_bind, lift. rewrite Hk.
    destruct (Event_init_missing items op f Hf Hnone) as [what ->]. eauto.
  - intros items v op k -> Hop Hk Hin Hnot. simpl. rewrite Hop.
    unfold mbind, M_bind, lift. rewrite Hk.
    destruct (Event_init_unexpected items op k Hin Hnot) as [what ->]. eauto.
  - intros items v op ev -> Hop Hk Hev Hh. simpl. rewrite Hop.
    unfold mbind at 1 2 3, M_bind at 1 2 3, lift. rewrite Hk, Hev.
    rewrite dispatch_unfold. unfold _table_to_model. by rewrite Hh.
Qed.

Lemma handle_notify_malformed_raises_witness :
  handle_notify false Cases.loads Sample.models (Sample.notify Cases.no_operation)
                Sample.process
  = (Raise (KeyError "operation"), Sample.process).
Proof.
  assert (H : Cases.loads (payload (Sample.notify Cases.no_operation))
              = inr Cases.no_operation) by (vm_compute; reflexivity).
  exact (proj1 (proj2 (handle_notify_malformed_raises false Cases.loads Sample.models
                         (Sample.notify Cases.no_operation) Cases.no_operation
                         Sample.process H))
           [("txid", JInt 7); ("table", JStr "book")] eq_refl eq_refl).
Defined.

(** ** Binding and unbinding, on every path *)

Section catalog.
Context (PREFIX : string) (is_info : bool).

(** Where one [bind_table] leaves the database it was called on, on every
    path: the trigger of the table is dropped, and the new one is there
    exactly when the call returned and was given operations. *)
Lemma bind_table_catalog table events db schema st c :
  connections st !! db = Some c →
  ∃ c',
    connections (bind_table PREFIX is_info table events db schema st).2 !! db = Some c'
    ∧ (∀ db', db' ≠ db →
         connections (bind_table PREFIX is_info table events db schema st).2 !! db'
         = connections st !! db')
    ∧ Pg.schemas c' = Pg.schemas c ∧ Pg.tables c' = Pg.tables c
    ∧ Pg.rows c' = Pg.rows c ∧ Pg.notified c' = Pg.notified c
    ∧ Pg.triggers c'
      = filter (λ t, ¬ Pg.is_trigger (Pg.trigger_name PREFIX table) schema table t)
               (Pg.triggers c)
        ++ (if is_ok (bind_table PREFIX is_info table events db schema st).1
               && bool_decide (events ≠ [])
            then [Pg.capture_trigger PREFIX schema table events] else []).
Proof.
  intros Hc. rewrite bind_table_unfold.
  pose proof (unbind_table_run PREFIX is_info table db schema st) as Hu. rewrite Hc in Hu.
  destruct Hu as (st1 & -> & Hf1 & Hc1 & Hj1 & _).
  assert (Hl1 : connections st1 !! db = Some (Pg.drop_trigger PREFIX schema table c))
    by (by rewrite Hc1, lookup_insert_eq).
  assert (Ho1 : ∀ db', db' ≠ db → connections st1 !! db' = connections st !! db').
  { intros db' Hne. by rewrite Hc1, lookup_insert_ne. }
  case_bool_decide as Hlen.
  2:{ exists (Pg.drop_trigger PREFIX schema table c). simpl.
      rewrite bool_decide_false; [by rewrite app_nil_r|].
      destruct events; [by intros []|simpl in Hlen; lia]. }
  assert (Hne : events ≠ []) by (by destruct events; [simpl in Hlen; lia|]).
  rewrite (bool_decide_true (events ≠ [])) by done.
  assert (Hmid : ∀ s c2 r,
            connections s !! db = Some c2 →
            (∀ db', db' ≠ db → connections s !! db' = connections st !! db') →
            Pg.schemas c2 = Pg.schemas c → Pg.tables c2 = Pg.tables c →
            Pg.rows c2 = Pg.rows c → Pg.notified c2 = Pg.notified c →
            Pg.triggers c2 = Pg.triggers (Pg.drop_trigger PREFIX schema table c) →
            r = (_execute_sql (Pg.CREATE_TRIGGER PREFIX schema table (value <$> events)) db;;
                 when is_info (log_call INFO (MsgStartListen table (name <$> events)))) s →
            ∃ c', connections r.2 !! db = Some c'
              ∧ (∀ db', db' ≠ db → connections r.2 !! db' = connections st !! db')
              ∧ Pg.schemas c' = Pg.schemas c ∧ Pg.tables c' = Pg.tables c
              ∧ Pg.rows c' = Pg.rows c ∧ Pg.notified c' = Pg.notified c
              ∧ Pg.triggers c'
                = filter (λ t, ¬ Pg.is_trigger (Pg.trigger_name PREFIX table) schema table t)
                         (Pg.triggers c)
                  ++ (if is_ok r.1 && true
                      then [Pg.capture_trigger PREFIX schema table events] else [])).
  { intros s c2 r Hs Ho Hsc Htb Hro Hno Htr ->.
    pose proof (execute_then_log is_info db
                  (Pg.CREATE_TRIGGER PREFIX schema table (value <$> events))
                  (MsgStartListen table (name <$> events)) s) as He.
    rewrite Hs in He. destruct He as (s' & -> & _ & Hcs & _).
    destruct (Pg.exec (Pg.CREATE_TRIGGER PREFIX schema table (value <$> events)) c2)
      as [c3|e] eqn:Hex; simpl.
    - exists c3. rewrite Hcs, lookup_insert_eq. split; [done|].
      split; [intros db' Hne'; rewrite lookup_insert_ne by done; auto|].
      simpl in Hex. rewrite parse_operations_value in Hex.
      repeat case_match; simplify_eq. simpl. by rewrite Htr.
    - exists c2. rewrite Hcs. split; [done|]. split; [done|].
      rewrite app_nil_r. by rewrite Htr. }
  destruct (_func_created st1) eqn:Hf.
  - rewrite create_emit_func_once_set by done.
    eapply (Hmid st1); eauto.
  - rewrite create_emit_func_once_unset by done.
    pose proof (create_emit_func_run PREFIX is_info db schema st1) as He.
    rewrite Hl1 in He. destruct He as (st2 & -> & _ & Hc2 & _).
    destruct (Pg.exec (Pg.CREATE_EMIT_FUNC PREFIX schema) _) as [c2|e] eqn:Hex.
    + unfold set_func_created.
      eapply (Hmid _ c2); [|intros db' Hne'| | | | | |reflexivity]; simpl.
      * by rewrite Hc2, lookup_insert_eq.
      * rewrite Hc2, lookup_insert_ne by done. auto.
      * simpl in Hex. repeat case_match; by simplify_eq.
      * simpl in Hex. repeat case_match; by simplify_eq.
      * simpl in Hex. repeat case_match; by simplify_eq.
      * simpl in Hex. repeat case_match; by simplify_eq.
      * simpl in Hex. repeat case_match; by simplify_eq.
    + exists (Pg.drop_trigger PREFIX schema table c). simpl. rewrite Hc2.
      split; [done|]. split; [done|]. by rewrite app_nil_r.
Qed.

End catalog.

Lemma is_trigger_other prefix schema table prefix' schema' table' (t : Pg.Trigger) :
  (schema', table') ≠ (schema, table) →
  Pg.is_trigger (Pg.trigger_name prefix' table') schema' table' t = true →
  Pg.is_trigger (Pg.trigger_name prefix table) schema table t = false.
Proof.
  intros Hne. unfold Pg.is_trigger. rewrite !andb_true_iff, !String.eqb_eq.
  intros [[_ Hs] Ht].
  destruct (String.eqb_spec (Pg.tg_schema t) schema) as [Hs'|]; [|by rewrite andb_false_r].
  destruct (String.eqb_spec (Pg.tg_table t) table) as [Ht'|]; [|by rewrite andb_false_r].
  congruence.
Qed.

Lemma filter_other_table prefix schema table prefix' schema' table' (ts : list Pg.Trigger) :
  (schema', table') ≠ (schema, table) →
  filter (λ t, Pg.is_trigger (Pg.trigger_name prefix' table') schema' table' t)
         (filter (λ t, ¬ Pg.is_trigger (Pg.trigger_name prefix table) schema table t) ts)
  = filter (λ t, Pg.is_trigger (Pg.trigger_name prefix' table') schema' table' t) ts.
Proof.
  intros Hne. induction ts as [|t ts IH]; [done|].
  rewrite !filter_cons.
  destruct (Pg.is_trigger (Pg.trigger_name prefix' table') schema' table' t) eqn:H'.
  - rewrite (is_trigger_other prefix schema table prefix' schema' table' t Hne H').
    rewrite decide_True by (by intros []). rewrite filter_cons, H'.
    rewrite !decide_True by done. by rewrite IH.
  - destruct (decide (¬ _)); [rewrite filter_cons, H'|];
      rewrite ?decide_False by (by intros []); done.
Qed.

(** Whether it returns or raises, [bind_table] with plain names leaves
    the capture triggers of every other table of the database in place,
    and the other databases as they are. *)
Theorem bind_table_leaves_other_tables
    (PREFIX : string) (is_info : bool)
    (table : string) (events : list EventKind) (db schema : string)
    (st : Process) (c : Pg.Catalog) (schema' table' : string) :
  Pg.plain PREFIX schema table = true →
  connections st !! db = Some c →
  (schema', table') ≠ (schema, table) →
  ∃ c',
    connections (bind_table PREFIX is_info table events db schema st).2 !! db = Some c'
    ∧ Pg.capture_triggers PREFIX schema' table' c' = Pg.capture_triggers PREFIX schema' table' c
    ∧ ∀ db', db' ≠ db →
        connections (bind_table PREFIX is_info table events db schema st).2 !! db'
        = connections st !! db'.
Proof.
  intros _ Hc Hne.
  destruct (bind_table_catalog PREFIX is_info table events db schema st c Hc)
    as (c' & Hc' & Ho & _ & _ & _ & _ & Htr).
  exists c'. split; [done|]. split; [|done].
  unfold Pg.capture_triggers. rewrite Htr, filter_app, filter_other_table by done.
  destruct (_ && _); [|by rewrite app_nil_r].
  rewrite filter_cons, filter_nil, decide_False, app_nil_r; [done|].
  intros H. apply Is_true_true in H.
  apply (is_trigger_other PREFIX schema table PREFIX schema' table' _ Hne) in H.
  by rewrite is_trigger_capture_trigger in H.
Qed.

Lemma bind_table_leaves_other_tables_witness :
  ∃ c',
    connections (bind_table "pg" true "author" [INSERT] "default" "public" Cases.bound).2
      !! "default" = Some c'
    ∧ Pg.capture_triggers "pg" "public" "book" c'
      = Pg.capture_triggers "pg" "public" "book" Cases.bound_library.
Proof.
  assert (H1 : connections Cases.bound !! "default" = Some Cases.bound_library)
    by (vm_compute; reflexivity).
  assert (H2 : ("public", "book") ≠ ("public", "author")) by discriminate.
  assert (H0 : Pg.plain "pg" "public" "author" = true) by reflexivity.
  destruct (bind_table_leaves_other_tables "pg" true "author" [INSERT] "default" "public"
              Cases.bound Cases.bound_library "public" "book" H0 H1 H2)
    as (c' & Hc' & Htr & _).
  exists c'. split; [exact Hc'|exact Htr].
Defined.

(** [bind_table] drops the trigger of the table before it makes the new
    one: a call that raises on a known database (the [CREATE TRIGGER] or
    the installation of the routine was rejected) leaves the table
    without a capture trigger, also when it had one before. *)
Theorem bind_table_raise_leaves_table_unbound
    (PREFIX : string) (is_info : bool)
    (table : string) (events : list EventKind) (db schema : string)
    (st st' : Process) (c : Pg.Catalog) (e : exn) :
  connections st !! db = Some c →
  bind_table PREFIX is_info table events db schema st = (Raise e, st') →
  ∃ c',
    connections st' !! db = Some c'
    ∧ Pg.capture_triggers PREFIX schema table c' = []
    ∧ Pg.triggers c'
      = filter (λ t, ¬ Pg.is_trigger (Pg.trigger_name PREFIX table) schema table t)
               (Pg.triggers c).
Proof.
  intros Hc Hrun.
  destruct (bind_table_catalog PREFIX is_info table events db schema st c Hc)
    as (c' & Hc' & _ & _ & _ & _ & _ & Htr).
  rewrite Hrun in Hc', Htr. simpl in *. rewrite app_nil_r in Htr.
  exists c'. split; [done|]. split; [|done].
  unfold Pg.capture_triggers. rewrite Htr. apply filter_filter_neg.
Qed.

Lemma bind_table_raise_leaves_table_unbound_witness :
  Pg.capture_triggers "pg" "public" "book" Cases.bound_library
  = [Pg.capture_trigger "pg" "public" "book" ALL_EVENTS]
  ∧ ∃ c',
      connections Cases.after_duplicate !! "default" = Some c'
      ∧ Pg.capture_triggers "pg" "public" "book" c' = [].
Proof.
  assert (H1 : connections Cases.bound !! "default" = Some Cases.bound_library)
    by (vm_compute; reflexivity).
  assert (H2 : bind_table "pg" true "book" [INSERT; INSERT] "default" "public" Cases.bound
               = (Raise (ProgrammingError "duplicate trigger events specified"),
                  Cases.after_duplicate))
    by (vm_compute; reflexivity).
  split; [vm_compute; reflexivity|].
  destruct (bind_table_raise_leaves_table_unbound "pg" true "book" [INSERT; INSERT]
              "default" "public" Cases.bound Cases.after_duplicate Cases.bound_library
              (ProgrammingError "duplicate trigger events specified") H1 H2)
    as (c' & Hc' & Hnone & _).
  exists c'. split; [exact Hc'|exact Hnone].
Defined.

(** After [unbind_table] with plain names the table has no capture
    trigger, the other triggers, the tables, the routines and the flag
    are as before, and a second call changes nothing more. *)
Theorem unbind_table_unbinds
    (PREFIX : string) (is_info : bool)
    (table db schema : string) (st : Process) (c : Pg.Catalog) :
  Pg.well_named (Pg.DROP_TRIGGER PREFIX schema table) = true →
  connections st !! db = Some c →
  ∃ st1 st2 c1,
    unbind_table PREFIX is_info table db schema st = (Ok (), st1)
    ∧ connections st1 !! db = Some c1
    ∧ Pg.capture_triggers PREFIX schema table c1 = []
    ∧ Pg.triggers c1
      = filter (λ t, ¬ Pg.is_trigger (Pg.trigger_name PREFIX table) schema table t)
               (Pg.triggers c)
    ∧ Pg.functions c1 = Pg.functions c ∧ Pg.tables c1 = Pg.tables c
    ∧ _func_created st1 = _func_created st
    ∧ unbind_table PREFIX is_info table db schema st1 = (Ok (), st2)
    ∧ connections st2 = connections st1.
Proof.
  intros _ Hc.
  pose proof (unbind_table_run PREFIX is_info table db schema st) as Hu. rewrite Hc in Hu.
  destruct Hu as (st1 & Hrun1 & Hf1 & Hc1 & _).
  assert (Hl1 : connections st1 !! db = Some (Pg.drop_trigger PREFIX schema table c))
    by (by rewrite Hc1, lookup_insert_eq).
  pose proof (unbind_table_run PREFIX is_info table db schema st1) as Hu. rewrite Hl1 in Hu.
  destruct Hu as (st2 & Hrun2 & _ & Hc2 & _).
  exists st1, st2, (Pg.drop_trigger PREFIX schema table c).
  repeat split; try done.
  - apply filter_filter_neg.
  - rewrite Hc2. apply insert_id. rewrite Hl1. f_equal.
    unfold Pg.drop_trigger, Pg.with_triggers. simpl. f_equal.
    by rewrite list_filter_filter_l.
Qed.

Lemma unbind_table_unbinds_witness :
  ∃ st1 c1,
    unbind_table "pg" true "book" "default" "public" Cases.bound = (Ok (), st1)
    ∧ connections st1 !! "default" = Some c1
    ∧ Pg.capture_triggers "pg" "public" "book" c1 = []
    ∧ Pg.functions c1 = Pg.functions Cases.bound_library.
Proof.
  assert (H1 : connections Cases.bound !! "default" = Some Cases.bound_library)
    by (vm_compute; reflexivity).
  assert (H0 : Pg.well_named (Pg.DROP_TRIGGER "pg" "public" "book") = true)
    by reflexivity.
  destruct (unbind_table_unbinds "pg" true "book" "default" "public"
              Cases.bound Cases.bound_library H0 H1)
    as (st1 & st2 & c1 & Hrun & Hc1 & Hnone & _ & Hfn & _).
  exists st1, c1. split; [exact Hrun|]. split; [exact Hc1|]. split; [exact Hnone|exact Hfn].
Defined.

(** Binding a bound table again, with other operations, replaces its
    trigger (the names being plain, and the capture routine installed
    whenever the flag says so): the table ends with one capture trigger,
    for the operations of the second call, and the triggers the module
    did not make are untouched. *)
Theorem bind_table_rebinds
    (PREFIX : string) (is_info : bool)
    (table : string) (events events' : list EventKind) (db schema : string)
    (st : Process) (c : Pg.Catalog) :
  Pg.plain PREFIX schema table = true →
  connections st !! db = Some c →
  schema ∈ Pg.schemas c →
  (schema, table) ∈ Pg.tables c →
  events ≠ [] → NoDup events → events' ≠ [] → NoDup events' →
  (_func_created st = true → (schema, Pg.emit_func_name PREFIX) ∈ Pg.functions c) →
  ∃ st1 st2 c2,
    bind_table PREFIX is_info table events db schema st = (Ok (), st1)
    ∧ bind_table PREFIX is_info table events' db schema st1 = (Ok (), st2)
    ∧ connections st2 !! db = Some c2
    ∧ Pg.capture_triggers PREFIX schema table c2
      = [Pg.capture_trigger PREFIX schema table events']
    ∧ Pg.triggers c2
      = filter (λ t, ¬ Pg.is_trigger (Pg.trigger_name PREFIX table) schema table t)
               (Pg.triggers c)
        ++ [Pg.capture_trigger PREFIX schema table events'].
Proof.
  intros _ Hc Hs Ht Hne Hnd Hne' Hnd' Hfn.
  destruct (bind_table_accepted PREFIX is_info table events db schema st c)
    as (st1 & c1 & Hb1 & Hc1 & Hf1 & Hs1 & Ht1 & Hfn1 & Htr1 & _); try done.
  destruct (bind_table_accepted PREFIX is_info table events' db schema st1 c1)
    as (st2 & c2 & Hb2 & Hc2 & _ & _ & _ & _ & Htr2 & _); try done.
  { by rewrite Hc1, lookup_insert_eq. } { by rewrite Hs1. } { by rewrite Ht1. }
  assert (Htr : Pg.triggers c2
                = filter (λ t, ¬ Pg.is_trigger (Pg.trigger_name PREFIX table) schema table t)
                         (Pg.triggers c)
                  ++ [Pg.capture_trigger PREFIX schema table events']).
  { by rewrite Htr2, Htr1, filter_capture_snoc, list_filter_filter_l. }
  exists st1, st2, c2. repeat split; try done.
  - by rewrite Hc2, lookup_insert_eq.
  - by apply (capture_triggers_after_bind PREFIX schema table events' (Pg.triggers c)).
Qed.

Lemma bind_table_rebinds_witness :
  ∃ st1 st2 c2,
    bind_table "pg" true "book" ALL_EVENTS "default" "public" Sample.process = (Ok (), st1)
    ∧ bind_table "pg" true "book" [DELETE] "default" "public" st1 = (Ok (), st2)
    ∧ connections st2 !! "default" = Some c2
    ∧ Pg.triggers c2 = [Pg.capture_trigger "pg" "public" "book" [DELETE]].
Proof.
  assert (H1 : connections Sample.process !! "default" = Some Sample.catalog)
    by reflexivity.
  assert (H2 : "public" ∈ Pg.schemas Sample.catalog) by apply list_elem_of_here.
  assert (H3 : ("public", "book") ∈ Pg.tables Sample.catalog) by apply list_elem_of_here.
  assert (H4 : ALL_EVENTS ≠ []) by discriminate.
  assert (H5 : NoDup ALL_EVENTS)
    by (apply (bool_decide_unpack (NoDup ALL_EVENTS)); vm_compute; exact I).
  assert (H6 : [DELETE] ≠ []) by discriminate.
  assert (H7 : NoDup [DELETE]) by apply NoDup_singleton.
  assert (H8 : _func_created Sample.process = true →
               ("public", Pg.emit_func_name "pg") ∈ Pg.functions Sample.catalog)
    by discriminate.
  assert (H0 : Pg.plain "pg" "public" "book" = true) by reflexivity.
  destruct (bind_table_rebinds "pg" true "book" ALL_EVENTS [DELETE] "default" "public"
              Sample.process Sample.catalog H0 H1 H2 H3 H4 H5 H6 H7 H8)
    as (st1 & st2 & c2 & Hb1 & Hb2 & Hc2 & _ & Htr).
  exists st1, st2, c2. split; [exact Hb1|]. split; [exact Hb2|]. split; [exact Hc2|exact Htr].
Defined.

(** [unbind_table] takes back what [bind_table] did to the triggers, and
    only that: the capture routine stays installed and the flag stays
    set (the names being plain, and the capture routine installed
    whenever the flag says so). *)
Theorem unbind_table_after_bind_table
    (PREFIX : string) (is_info : bool)
    (table : string) (events : list EventKind) (db schema : string)
    (st : Process) (c : Pg.Catalog) :
  Pg.plain PREFIX schema table = true →
  connections st !! db = Some c →
  schema ∈ Pg.schemas c →
  (schema, table) ∈ Pg.tables c →
  events ≠ [] → NoDup events →
  (_func_created st = true → (schema, Pg.emit_func_name PREFIX) ∈ Pg.functions c) →
  ∃ st1 st2 c2,
    bind_table PREFIX is_info table events db schema st = (Ok (), st1)
    ∧ unbind_table PREFIX is_info table db schema st1 = (Ok (), st2)
    ∧ connections st2 !! db = Some c2
    ∧ Pg.capture_triggers PREFIX schema table c2 = []
    ∧ Pg.triggers c2
      = filter (λ t, ¬ Pg.is_trigger (Pg.trigger_name PREFIX table) schema table t)
               (Pg.triggers c)
    ∧ (schema, Pg.emit_func_name PREFIX) ∈ Pg.functions c2
    ∧ _func_created st2 = true.
Proof.
  intros _ Hc Hs Ht Hne Hnd Hfn.
  destruct (bind_table_accepted PREFIX is_info table events db schema st c)
    as (st1 & c1 & Hb1 & Hc1 & Hf1 & _ & _ & Hfn1 & Htr1 & _); try done.
  pose proof (unbind_table_run PREFIX is_info table db schema st1) as Hu.
  rewrite Hc1, lookup_insert_eq in Hu.
  destruct Hu as (st2 & Hrun2 & Hf2 & Hc2 & _).
  exists st1, st2, (Pg.drop_trigger PREFIX schema table c1).
  assert (Htr : Pg.triggers (Pg.drop_trigger PREFIX schema table c1)
                = filter (λ t, ¬ Pg.is_trigger (Pg.trigger_name PREFIX table) schema table t)
                         (Pg.triggers c)).
  { simpl. by rewrite Htr1, filter_capture_snoc, list_filter_filter_l. }
  repeat split; try done.
  - by rewrite Hc2, lookup_insert_eq.
  - unfold Pg.capture_triggers. rewrite Htr. apply filter_filter_neg.
  - congruence.
Qed.

Lemma unbind_table_after_bind_table_witness :
  ∃ st1 st2 c2,
    bind_table "pg" true "book" ALL_EVENTS "default" "public" Sample.process = (Ok (), st1)
    ∧ unbind_table "pg" true "book" "default" "public" st1 = (Ok (), st2)
    ∧ connections st2 !! "default" = Some c2
    ∧ Pg.triggers c2 = []
    ∧ ("public", Pg.emit_func_name "pg") ∈ Pg.functions c2
    ∧ _func_created st2 = true.
Proof.
  assert (H1 : connections Sample.process !! "default" = Some Sample.catalog)
    by reflexivity.
  assert (H2 : "public" ∈ Pg.schemas Sample.catalog) by apply list_elem_of_here.
  assert (H3 : ("public", "book") ∈ Pg.tables Sample.catalog) by apply list_elem_of_here.
  assert (H4 : ALL_EVENTS ≠ []) by discriminate.
  assert (H5 : NoDup ALL_EVENTS)
    by (apply (bool_decide_unpack (NoDup ALL_EVENTS)); vm_compute; exact I).
  assert (H6 : _func_created Sample.process = true →
               ("public", Pg.emit_func_name "pg") ∈ Pg.functions Sample.catalog)
    by discriminate.
  assert (H0 : Pg.plain "pg" "public" "book" = true) by reflexivity.
  destruct (unbind_table_after_bind_table "pg" true "book" ALL_EVENTS "default" "public"
              Sample.process Sample.catalog H0 H1 H2 H3 H4 H5 H6)
    as (st1 & st2 & c2 & Hb & Hu & Hc2 & _ & Htr & Hfn & Hflag).
  exists st1, st2, c2. split; [exact Hb|]. split; [exact Hu|]. split; [exact Hc2|].
  split; [exact Htr|]. split; [exact Hfn|exact Hflag].
Defined.

(** The flag is one for the whole process, not one per database and
    schema: once it is set, [bind_table] (with plain names) on a
    database or schema that does not have the capture routine sends no
    [CREATE_EMIT_FUNC], its [CREATE TRIGGER] is rejected, and the table
    ends without a capture trigger. *)
Theorem bind_table_flag_set_routine_missing
    (PREFIX : string) (is_info : bool)
    (table : string) (events : list EventKind) (db schema : string)
    (st : Process) (c : Pg.Catalog) :
  Pg.plain PREFIX schema table = true →
  connections st !! db = Some c →
  _func_created st = true →
  (schema, Pg.emit_func_name PREFIX) ∉ Pg.functions c →
  (schema, table) ∈ Pg.tables c →
  events ≠ [] → NoDup events →
  ∃ st' c',
    bind_table PREFIX is_info table events db schema st
    = (Raise (ProgrammingError "function does not exist"), st')
    ∧ journal st' = journal st
        ++ [mkAttempt db (Pg.DROP_TRIGGER PREFIX schema table) true;
            mkAttempt db (Pg.CREATE_TRIGGER PREFIX schema table (value <$> events)) false]
    ∧ connections st' !! db = Some c'
    ∧ Pg.capture_triggers PREFIX schema table c' = []
    ∧ (schema, Pg.emit_func_name PREFIX) ∉ Pg.functions c'.
Proof.
  intros _ Hc Hf Hnf Ht Hne Hnd.
  destruct (bind_table_routine_missing_run PREFIX is_info table events db schema st c
              Hc Hf Hnf Ht Hne Hnd) as (st' & Hrun & Hj & Hcs & _).
  exists st', (Pg.drop_trigger PREFIX schema table c).
  split; [done|]. split; [done|].
  split; [by rewrite Hcs, lookup_insert_eq|]. split; [apply filter_filter_neg|done].
Qed.

Lemma bind_table_flag_set_routine_missing_witness :
  ∃ st' c',
    bind_table "pg" true "book" [INSERT] "replica" "public" Cases.bound
    = (Raise (ProgrammingError "function does not exist"), st')
    ∧ connections st' !! "replica" = Some c'
    ∧ Pg.capture_triggers "pg" "public" "book" c' = [].
Proof.
  assert (H1 : connections Cases.bound !! "replica" = Some Sample.catalog)
    by (vm_compute; reflexivity).
  assert (H2 : _func_created Cases.bound = true) by (vm_compute; reflexivity).
  assert (H3 : ("public", Pg.emit_func_name "pg") ∉ Pg.functions Sample.catalog)
    by apply not_elem_of_nil.
  assert (H4 : ("public", "book") ∈ Pg.tables Sample.catalog) by apply list_elem_of_here.
  assert (H5 : [INSERT] ≠ []) by discriminate.
  assert (H6 : NoDup [INSERT]) by apply NoDup_singleton.
  assert (H0 : Pg.plain "pg" "public" "book" = true) by reflexivity.
  destruct (bind_table_flag_set_routine_missing "pg" true "book" [INSERT] "replica" "public"
              Cases.bound Sample.catalog H0 H1 H2 H3 H4 H5 H6)
    as (st' & c' & Hrun & _ & Hc' & Hnone & _).
  exists st', c'. split; [exact Hrun|]. split; [exact Hc'|exact Hnone].
Defined.

(** An alias that [django.db.connections] does not know makes every
    operation raise before it has done anything: the process is as it
    was. [create_emit_func_once] does not look the alias up when the
    flag is set, and returns. *)
Theorem unknown_alias_raises
    (PREFIX : string) (is_info : bool)
    (json_loads : string → string + json) (get_models : list Model)
    (db : string) (st : Process) :
  connections st !! db = None →
  (∀ table schema, unbind_table PREFIX is_info table db schema st
                   = (Raise (ConnectionDoesNotExist db), st))
  ∧ (∀ table events schema, bind_table PREFIX is_info table events db schema st
                            = (Raise (ConnectionDoesNotExist db), st))
  ∧ (∀ schema, create_emit_func PREFIX is_info db schema st
               = (Raise (ConnectionDoesNotExist db), st))
  ∧ (∀ schema, create_emit_func_once PREFIX is_info db schema st
               = (if _func_created st then Ok () else Raise (ConnectionDoesNotExist db), st))
  ∧ (∀ schema poll_timeout listen_timeout events_limit w,
       listen PREFIX is_info json_loads get_models db schema poll_timeout
              listen_timeout events_limit w st
       = (Raise (ConnectionDoesNotExist db), st)).
Proof.
  intros Hc.
  assert (Hu : ∀ table schema, unbind_table PREFIX is_info table db schema st
                               = (Raise (ConnectionDoesNotExist db), st)).
  { intros t schema. pose proof (unbind_table_run PREFIX is_info t db schema st) as H.
    by rewrite Hc in H. }
  assert (He : ∀ schema, create_emit_func PREFIX is_info db schema st
                         = (Raise (ConnectionDoesNotExist db), st)).
  { intros schema. pose proof (create_emit_func_run PREFIX is_info db schema st) as H.
    by rewrite Hc in H. }
  split; [done|]. split; [|split; [done|split]].
  - intros. by rewrite bind_table_unfold, Hu.
  - intros. destruct (_func_created st) eqn:Hf.
    + by rewrite create_emit_func_once_set.
    + by rewrite create_emit_func_once_unset, He.
  - intros. unfold listen, mbind, M_bind, cursor_execute. by rewrite Hc.
Qed.

Lemma unknown_alias_raises_witness :
  bind_table "pg" true "book" ALL_EVENTS "replica" "public" Sample.process
  = (Raise (ConnectionDoesNotExist "replica"), Sample.process).
Proof.
  assert (H : connections Sample.process !! "replica" = None) by reflexivity.
  exact (proj1 (proj2 (unknown_alias_raises "pg" true Sample.loads Sample.models
                         "replica" Sample.process H))
           "book" ALL_EVENTS "public").
Defined.

(** [create_emit_func] with plain names, on a database that has the
    schema, installs the routine and touches neither triggers nor
    tables nor the other routines; a second call returns as well and
    changes nothing. It does not set the flag. *)
Theorem create_emit_func_twice
    (PREFIX : string) (is_info : bool)
    (db schema : string) (st : Process) (c : Pg.Catalog) :
  Pg.well_named (Pg.CREATE_EMIT_FUNC PREFIX schema) = true →
  connections st !! db = Some c →
  schema ∈ Pg.schemas c →
  ∃ st1 st2 c1,
    create_emit_func PREFIX is_info db schema st = (Ok (), st1)
    ∧ connections st1 !! db = Some c1
    ∧ (schema, Pg.emit_func_name PREFIX) ∈ Pg.functions c1
    ∧ Pg.triggers c1 = Pg.triggers c ∧ Pg.tables c1 = Pg.tables c
    ∧ (∀ f, f ≠ (schema, Pg.emit_func_name PREFIX) → f ∈ Pg.functions c1 ↔ f ∈ Pg.functions c)
    ∧ create_emit_func PREFIX is_info db schema st1 = (Ok (), st2)
    ∧ connections st2 = connections st1
    ∧ _func_created st2 = _func_created st.
Proof.
  intros _ Hc Hs.
  pose proof (create_emit_func_run PREFIX is_info db schema st) as H1. rewrite Hc in H1.
  destruct H1 as (st1 & Hrun1 & Hf1 & Hc1 & _).
  assert (Hex : ∃ c1, Pg.exec (Pg.CREATE_EMIT_FUNC PREFIX schema) c = Ok c1
                  ∧ (schema, Pg.emit_func_name PREFIX) ∈ Pg.functions c1
                  ∧ Pg.triggers c1 = Pg.triggers c ∧ Pg.tables c1 = Pg.tables c
                  ∧ Pg.schemas c1 = Pg.schemas c
                  ∧ (∀ f, f ≠ (schema, Pg.emit_func_name PREFIX) →
                          f ∈ Pg.functions c1 ↔ f ∈ Pg.functions c)).
  { simpl. rewrite bool_decide_true by done. unfold Pg.has_function.
    case_bool_decide; eexists; (split; [done|]); simpl; repeat split; try done.
    - apply list_elem_of_here.
    - intros [?|?]%elem_of_cons; done.
    - intros ?. by right. }
  destruct Hex as (c1 & Hex & Hin & Htr & Htb & Hsc & Hothers). rewrite Hex in *.
  assert (Hl1 : connections st1 !! db = Some c1) by (by rewrite Hc1, lookup_insert_eq).
  pose proof (create_emit_func_run PREFIX is_info db schema st1) as H2. rewrite Hl1 in H2.
  destruct H2 as (st2 & Hrun2 & Hf2 & Hc2 & _).
  assert (Hex2 : Pg.exec (Pg.CREATE_EMIT_FUNC PREFIX schema) c1 = Ok c1).
  { simpl. rewrite bool_decide_true by (by rewrite Hsc). unfold Pg.has_function.
    by rewrite bool_decide_true. }
  rewrite Hex2 in *.
  exists st1, st2, c1. repeat split; try done; try apply Hothers; try done.
  - rewrite Hc2. by apply insert_id.
  - congruence.
Qed.

Lemma create_emit_func_twice_witness :
  ∃ st1 st2 c1,
    create_emit_func "pg" true "default" "public" Sample.process = (Ok (), st1)
    ∧ connections st1 !! "default" = Some c1
    ∧ ("public", Pg.emit_func_name "pg") ∈ Pg.functions c1
    ∧ create_emit_func "pg" true "default" "public" st1 = (Ok (), st2)
    ∧ connections st2 = connections st1
    ∧ _func_created st2 = false.
Proof.
  assert (H1 : connections Sample.process !! "default" = Some Sample.catalog)
    by reflexivity.
  assert (H2 : "public" ∈ Pg.schemas Sample.catalog) by apply list_elem_of_here.
  assert (H0 : Pg.well_named (Pg.CREATE_EMIT_FUNC "pg" "public") = true) by reflexivity.
  destruct (create_emit_func_twice "pg" true "default" "public" Sample.process
              Sample.catalog H0 H1 H2)
    as (st1 & st2 & c1 & Hr1 & Hc1 & Hfn & _ & _ & _ & Hr2 & Hc2 & Hflag).
  exists st1, st2, c1. split; [exact Hr1|]. split; [exact Hc1|]. split; [exact Hfn|].
  split; [exact Hr2|]. split; [exact Hc2|exact Hflag].
Defined.

(** ** The cache of [_table_to_model] *)

Lemma key_eqb_refl key : hashable key = true → key_eqb key key = true.
Proof.
  destruct key; simpl; try done; intros _.
  - by destruct b.
  - lia.
  - apply String.eqb_refl.
Qed.

Lemma cache_take_head key r rest :
  hashable key = true → cache_take key ((key, r) :: rest) = Some (r, rest).
Proof. intros Hh. simpl. by rewrite key_eqb_refl. Qed.

Lemma cache_take_sub key entries r rest :
  cache_take key entries = Some (r, rest) →
  rest.*1 `sublist_of` entries.*1 ∧ (length rest < length entries)%nat
  ∧ ∃ k, key_eqb k key = true ∧ entries.*1 ≡ₚ k :: rest.*1.
Proof.
  revert r rest. induction entries as [|[k v] entries IH]; intros r rest; [done|].
  simpl. destruct (key_eqb k key) eqn:Hk.
  - intros [= <- <-]. split; [by apply sublist_cons|]. split; [lia|]. by exists k.
  - destruct (cache_take key entries) as [[r' rest']|] eqn:Ht; [|done].
    intros [= <- <-]. destruct (IH _ _ eq_refl) as (Hsub & Hlen & k' & Hk' & Hp).
    split; [by apply sublist_skip|]. split; [simpl; lia|].
    exists k'. split; [done|]. simpl. rewrite Hp. apply Permutation_swap.
Qed.

Lemma cache_take_none key entries :
  cache_take key entries = None → hashable key = true → key ∉ entries.*1.
Proof.
  induction entries as [|[k v] entries IH]; [intros _ _ H; by apply elem_of_nil in H|].
  simpl. destruct (key_eqb k key) eqn:Hk; [done|].
  destruct (cache_take key entries) as [[r' rest']|]; [done|].
  intros _ Hh [->|Hin]%elem_of_cons; [by rewrite key_eqb_refl in Hk|]. by apply IH.
Qed.

(** The cache of [_table_to_model] is bounded: a lookup leaves at most
    [maxsize] (128) entries in it, under distinct keys, whatever table
    names the events carry. *)
Theorem table_to_model_cache_bounded
    (get_models : list Model) (key : json) (st : Process) :
  cache_bounded (lru st) →
  cache_bounded (lru (_table_to_model get_models key st).2).
Proof.
  intros (Hlen & Hnd & Hh).
  destruct (hashable key) eqn:Hk.
  2:{ unfold _table_to_model. by rewrite Hk. }
  destruct (table_to_model_run get_models key st Hk) as (r & st' & -> & _ & _ & Hcase).
  simpl. destruct (cache_take key (lru st)) as [[v rest]|] eqn:Ht.
  - destruct Hcase as (_ & _ & ->).
    destruct (cache_take_sub _ _ _ _ Ht) as (Hsub & Hl & k & Hkk & Hp).
    apply key_eqb_eq in Hkk as ->; [|done].
    split; [simpl; lia|]. simpl. split.
    + by rewrite <- Hp.
    + constructor; [done|]. rewrite Hp in Hh. by apply Forall_cons in Hh as [_ ?].
  - destruct Hcase as (_ & _ & ->).
    split; [rewrite length_take; lia|].
    rewrite fmap_take, fmap_cons. cbn [fst]. split.
    + apply (sublist_NoDup (take lru_cache_maxsize (key :: (lru st).*1)) (key :: (lru st).*1));
        [|apply sublist_take].
      constructor; [by apply cache_take_none|done].
    + apply Forall_take. by constructor.
Qed.

Lemma table_to_model_cache_bounded_witness :
  cache_bounded (lru (_table_to_model Sample.models (JStr "book") Sample.after_ghost).2).
Proof.
  assert (H : cache_bounded (lru Sample.after_ghost)).
  { split; [vm_compute; lia|]. split; [apply NoDup_singleton|].
    apply Forall_singleton. reflexivity. }
  exact (table_to_model_cache_bounded Sample.models (JStr "book") Sample.after_ghost H).
Defined.

(** What [_table_to_model] answered for a table it answers again, from
    the cache and without logging, whatever models the application has
    by then: a table that had no model at its first event has no sender
    at its later events either. *)
Theorem table_to_model_answer_is_kept
    (get_models get_models' : list Model) (key : json) (st : Process) :
  hashable key = true →
  ∃ r st1 st2,
    _table_to_model get_models key st = (Ok r, st1)
    ∧ _table_to_model get_models' key st1 = (Ok r, st2)
    ∧ log st2 = log st1 ∧ lru st2 = lru st1.
Proof.
  intros Hk.
  destruct (table_to_model_run get_models key st Hk) as (r & st1 & Hrun1 & _ & _ & Hcase).
  assert (Hhead : ∃ rest, lru st1 = (key, r) :: rest).
  { destruct (cache_take key (lru st)) as [[v rest]|].
    - destruct Hcase as (-> & _ & ->). eauto.
    - destruct Hcase as (_ & _ & ->). simpl. eauto. }
  destruct Hhead as [rest Hl1].
  destruct (table_to_model_run get_models' key st1 Hk) as (r2 & st2 & Hrun2 & _ & _ & Hcase2).
  rewrite Hl1, cache_take_head in Hcase2 by done.
  destruct Hcase2 as (-> & Hlog & Hl2).
  exists r, st1, st2. by rewrite Hl1.
Qed.

Lemma table_to_model_answer_is_kept_witness :
  ∃ r st1 st2,
    _table_to_model [] (JStr "book") Sample.process = (Ok r, st1)
    ∧ _table_to_model Sample.models (JStr "book") st1 = (Ok r, st2)
    ∧ log st2 = log st1.
Proof.
  assert (H : hashable (JStr "book") = true) by reflexivity.
  destruct (table_to_model_answer_is_kept [] Sample.models (JStr "book") Sample.process H)
    as (r & st1 & st2 & H1 & H2 & Hlog & _).
  exists r, st1, st2. split; [exact H1|]. split; [exact H2|exact Hlog].
Defined.





(** ** What the module leaves of the databases *)

Lemma same_data_refl c : same_data c c.
Proof. by repeat split. Qed.

Lemma same_data_trans c1 c2 c3 : same_data c1 c2 → same_data c2 c3 → same_data c1 c3.
Proof.
  intros (? & ? & ? & ? & ?) (? & ? & ? & ? & ?).
  repeat split; try congruence. set_solver.
Qed.

Lemma same_databases_refl st : same_databases st st.
Proof. intros db. destruct (connections st !! db); [apply same_data_refl|done]. Qed.

Lemma same_databases_trans st1 st2 st3 :
  same_databases st1 st2 → same_databases st2 st3 → same_databases st1 st3.
Proof.
  intros H12 H23 db. specialize (H12 db). specialize (H23 db).
  destruct (connections st1 !! db), (connections st2 !! db), (connections st3 !! db);
    try done. by eapply same_data_trans.
Qed.

Lemma exec_same_data sql c c' : Pg.exec sql c = Ok c' → same_data c c'.
Proof.
  destruct sql; simpl; try done.
  - repeat case_match; try done; intros [= <-]; repeat split; try done.
    simpl. set_solver.
  - intros [= <-]. by repeat split.
  - repeat case_match; try done; intros [= <-]; by repeat split.
  - intros [= <-]. apply same_data_refl.
Qed.

Lemma keeps_bind {A B} (m : M A) (f : A → M B) :
  keeps_data m → (∀ a, keeps_data (f a)) → keeps_data (m ≫= f).
Proof.
  intros Hm Hf st. unfold mbind, M_bind. specialize (Hm st).
  destruct (m st) as [[a|e] st1]; [|done].
  eapply same_databases_trans; [exact Hm|apply Hf].
Qed.

Lemma keeps_of_connections {A} (m : M A) :
  (∀ st, connections (m st).2 = connections st) → keeps_data m.
Proof.
  intros H st db. rewrite H. destruct (connections st !! db); [apply same_data_refl|done].
Qed.

Lemma keeps_when b (m : M unit) : keeps_data m → keeps_data (when b m).
Proof. destruct b; [done|]. intros _. by apply keeps_of_connections. Qed.

Lemma keeps_cursor_execute db sql : keeps_data (cursor_execute db sql).
Proof.
  intros st. unfold cursor_execute.
  destruct (connections st !! db) as [c|] eqn:Hc; [|apply same_databases_refl].
  destruct (Pg.exec sql c) as [c'|e] eqn:Hex.
  2:{ intros db'. simpl. destruct (connections st !! db'); [apply same_data_refl|done]. }
  intros db'. simpl. destruct (decide (db' = db)) as [->|Hne].
  - rewrite Hc, lookup_insert_eq. by eapply exec_same_data.
  - rewrite lookup_insert_ne by done.
    destruct (connections st !! db'); [apply same_data_refl|done].
Qed.

Lemma keeps_unbind_table PREFIX is_info table db schema :
  keeps_data (unbind_table PREFIX is_info table db schema).
Proof.
  apply keeps_bind; [apply keeps_cursor_execute|].
  intros []. apply keeps_when. by apply keeps_of_connections.
Qed.

Lemma keeps_create_emit_func PREFIX is_info db schema :
  keeps_data (create_emit_func PREFIX is_info db schema).
Proof.
  apply keeps_bind; [apply keeps_cursor_execute|].
  intros []. apply keeps_when. by apply keeps_of_connections.
Qed.

Lemma keeps_create_emit_func_once PREFIX is_info db schema :
  keeps_data (create_emit_func_once PREFIX is_info db schema).
Proof.
  apply keeps_bind; [by apply keeps_of_connections|].
  intros created. destruct created; simpl; [by apply keeps_of_connections|].
  apply keeps_bind; [apply keeps_create_emit_func|].
  intros []. by apply keeps_of_connections.
Qed.

Lemma keeps_bind_table PREFIX is_info table events db schema :
  keeps_data (bind_table PREFIX is_info table events db schema).
Proof.
  apply keeps_bind; [apply keeps_unbind_table|].
  intros []. case_bool_decide; [|by apply keeps_of_connections].
  apply keeps_bind; [apply keeps_create_emit_func_once|].
  intros []. apply keeps_bind; [apply keeps_cursor_execute|].
  intros []. apply keeps_when. by apply keeps_of_connections.
Qed.

Lemma keeps_listen PREFIX is_info json_loads get_models
    db schema poll_timeout listen_timeout events_limit w :
  keeps_data (listen PREFIX is_info json_loads get_models db schema poll_timeout
                     listen_timeout events_limit w).
Proof.
  apply keeps_bind; [apply keeps_cursor_execute|].
  intros []. apply keeps_of_connections. intros st.
  by destruct (iter_notifies_untouched is_info json_loads get_models
                 (w_started_at w) (w_wakes w) (w_notifies w) st) as (_ & _ & -> & _).
Qed.

Lemma keeps_call PREFIX DEFAULT_SCHEMA DEFAULT_DATABASE is_info json_loads get_models c :
  keeps_data (call PREFIX DEFAULT_SCHEMA DEFAULT_DATABASE is_info json_loads get_models c).
Proof.
  destruct c; simpl.
  - apply keeps_bind_table.
  - apply keeps_unbind_table.
  - apply keeps_bind_table.
  - apply keeps_unbind_table.
  - apply keeps_create_emit_func.
  - apply keeps_create_emit_func_once.
  - apply keeps_bind; [apply keeps_listen|]. intros _. by apply keeps_of_connections.
Qed.

(** Whatever a client calls with plain names, and whichever of the
    calls raise, the module creates no table and no schema, writes no
    row of a staging log, sends no notification and removes no routine,
    and the process knows the same databases: the staging log that the
    capture routine inserts into is there after the calls only when it
    was there before them. *)
Theorem session_keeps_data
    (PREFIX DEFAULT_SCHEMA DEFAULT_DATABASE : string) (is_info : bool)
    (json_loads : string → string + json) (get_models : list Model)
    (cs : list Call) (st : Process) (db : string) (c : Pg.Catalog) :
  Forall (λ x, call_plain PREFIX DEFAULT_SCHEMA x = true) cs →
  connections st !! db = Some c →
  ∃ c',
    connections (session PREFIX DEFAULT_SCHEMA DEFAULT_DATABASE is_info json_loads
                         get_models cs st) !! db = Some c'
    ∧ Pg.schemas c' = Pg.schemas c ∧ Pg.tables c' = Pg.tables c
    ∧ Pg.rows c' = Pg.rows c ∧ Pg.notified c' = Pg.notified c
    ∧ Pg.functions c ⊆ Pg.functions c'
    ∧ ∀ schema, Pg.has_table c' schema (Pg.events_name PREFIX)
                = Pg.has_table c schema (Pg.events_name PREFIX).
Proof.
  intros _ Hc.
  assert (H : same_databases st (session PREFIX DEFAULT_SCHEMA DEFAULT_DATABASE is_info
                                         json_loads get_models cs st)).
  { clear Hc. revert st. induction cs as [|x cs IH]; intros st; [apply same_databases_refl|].
    simpl. eapply same_databases_trans; [apply keeps_call|apply IH]. }
  specialize (H db). rewrite Hc in H.
  destruct (connections (session _ _ _ _ _ _ cs st) !! db) as [c'|]; [|done].
  destruct H as (Hs & Ht & Hr & Hn & Hf).
  exists c'. repeat split; try done.
  intros schema. unfold Pg.has_table. by rewrite Ht.
Qed.

Lemma session_keeps_data_witness :
  ∃ c',
    connections (session "pg" "public" "default" true Sample.loads Sample.models
                         Cases.calls Cases.process) !! "default" = Some c'
    ∧ Pg.tables c' = Pg.tables Cases.library
    ∧ Pg.has_table c' "public" (Pg.events_name "pg") = false.
Proof.
  assert (H : connections Cases.process !! "default" = Some Cases.library)
    by (vm_compute; reflexivity).
  assert (H0 : Forall (λ x, call_plain "pg" "public" x = true) Cases.calls)
    by (repeat constructor).
  destruct (session_keeps_data "pg" "public" "default" true Sample.loads Sample.models
              Cases.calls Cases.process "default" Cases.library H0 H)
    as (c' & Hc' & _ & Ht & _ & _ & _ & Hstage).
  exists c'. split; [exact Hc'|]. split; [exact Ht|].
  rewrite Hstage. vm_compute. reflexivity.
Defined.

(** ** The listener and the database *)

(** On a database the process knows, and with a prefix that makes a
    plain channel name (the [LISTEN] pastes it bare), [listen] sends
    one statement, its [LISTEN], and leaves every database, the flag
    and the namespace of the module as they are, whatever arrives and
    however the loop ends. *)
Theorem listen_sends_one_statement
    (PREFIX : string) (is_info : bool)
    (json_loads : string → string + json) (get_models : list Model)
    (db schema : string) (poll_timeout : Z) (listen_timeout events_limit : option Z)
    (w : World) (st : Process) (c : Pg.Catalog) :
  Pg.well_named (Pg.LISTEN PREFIX) = true →
  connections st !! db = Some c →
  ∃ r st',
    listen PREFIX is_info json_loads get_models db schema poll_timeout
           listen_timeout events_limit w st = (r, st')
    ∧ journal st' = journal st ++ [mkAttempt db (Pg.LISTEN PREFIX) true]
    ∧ connections st' = connections st
    ∧ _func_created st' = _func_created st
    ∧ namespace st' = namespace st.
Proof.
  intros _ Hc. unfold listen, mbind, M_bind, cursor_execute. rewrite Hc. simpl.
  match goal with |- context [iter_notifies _ _ _ ?a ?b ?n ?s] =>
    pose proof (iter_notifies_untouched is_info json_loads get_models a b n s) as H;
    destruct (iter_notifies is_info json_loads get_models a b n s) as [r st1]
  end.
  destruct H as (Hf & Hn & Hcs & Hj). simpl in *.
  exists r, st1. split; [done|]. rewrite Hj, Hcs, Hf, Hn.
  repeat split. by apply insert_id.
Qed.

Lemma listen_sends_one_statement_witness :
  ∃ r st',
    listen "pg" false Sample.loads Sample.models "default" "public" 5 None None
           Sample.two_inserts Sample.patched = (r, st')
    ∧ journal st' = [mkAttempt "default" (Pg.LISTEN "pg") true]
    ∧ connections st' = connections Sample.patched.
Proof.
  assert (H : connections Sample.patched !! "default" = Some Sample.catalog)
    by reflexivity.
  assert (H0 : Pg.well_named (Pg.LISTEN "pg") = true) by reflexivity.
  destruct (listen_sends_one_statement "pg" false Sample.loads Sample.models
              "default" "public" 5 None None Sample.two_inserts Sample.patched
              Sample.catalog H0 H)
    as (r & st' & Hrun & Hj & Hc & _).
  exists r, st'. split; [exact Hrun|]. split; [exact Hj|exact Hc].
Defined.

(** [timedelta.seconds] is the seconds within the day. *)
Lemma timedelta_seconds_range delta : 0 ≤ timedelta_seconds delta < 86400.
Proof. unfold timedelta_seconds. apply Z.mod_pos_bound. lia. Qed.

Lemma iter_notifies_returned is_info json_loads get_models
    started_at wakes notifies st st' :
  iter_notifies is_info json_loads get_models started_at wakes notifies st
  = (Ok Returned, st') →
  ∃ v wk,
    namespace st !! "stop_secs" = Some v ∧ truthy v = true ∧ wk ∈ wakes
    ∧ int_ge (timedelta_seconds (wk_now wk - started_at)) v = Ok true.
Proof.
  revert notifies st. induction wakes as [|wk rest IH]; intros notifies st.
  - simpl. unfold mbind, M_bind, load_global.
    by destruct (namespace st !! "stop_secs").
  - simpl. unfold mbind at 1, M_bind at 1, load_global.
    destruct (namespace st !! "stop_secs") as [v|] eqn:Hv; [|done].
    unfold mbind at 1, M_bind at 1.
    destruct (truthy v) eqn:Htr.
    + unfold lift.
      destruct (int_ge (timedelta_seconds (wk_now wk - started_at)) v) as [[]|e] eqn:Hge;
        [intros _; exists v, wk; repeat split; try done; apply list_elem_of_here| |done].
      destruct (wk_ready wk).
      * unfold mbind, M_bind.
        pose proof (drain_untouched is_info json_loads get_models
                      (length (notifies ++ wk_polled wk)) (notifies ++ wk_polled wk) st) as Hu.
        destruct (drain _ _ _ _ _ st) as [[left|e] st1]; [|done].
        destruct Hu as (_ & Hn & _). simpl in Hn.
        intros Hrun. destruct (IH _ _ Hrun) as (v' & wk' & Hv' & ? & ? & ?).
        rewrite Hn in Hv'. exists v', wk'.
        split; [congruence|]. split; [done|]. split; [apply elem_of_cons; by right|done].
      * intros Hrun. destruct (IH _ _ Hrun) as (v' & wk' & Hv' & ? & ? & ?).
        exists v', wk'.
        split; [congruence|]. split; [done|]. split; [apply elem_of_cons; by right|done].
    + simpl. destruct (wk_ready wk).
      * unfold mbind, M_bind.
        pose proof (drain_untouched is_info json_loads get_models
                      (length (notifies ++ wk_polled wk)) (notifies ++ wk_polled wk) st) as Hu.
        destruct (drain _ _ _ _ _ st) as [[left|e] st1]; [|done].
        destruct Hu as (_ & Hn & _). simpl in Hn.
        intros Hrun. destruct (IH _ _ Hrun) as (v' & wk' & Hv' & Htr' & ? & ?).
        rewrite Hn, Hv in Hv'. injection Hv' as <-. congruence.
      * intros Hrun. destruct (IH _ _ Hrun) as (v' & wk' & Hv' & Htr' & ? & ?).
        rewrite Hv in Hv'. injection Hv' as <-. congruence.
Qed.

(** When another module has bound [stop_secs] to an int in the
    namespace of the module, [listen] returns only if that int is not
    zero and, at the top of a turn, the seconds within the day of the
    time since the start have reached it. So a limit of a day or more
    never stops the listener, and [listen_timeout] has no part in it. *)
Theorem listen_returns_only_on_stop_secs
    (PREFIX : string) (is_info : bool)
    (json_loads : string → string + json) (get_models : list Model)
    (db schema : string) (poll_timeout : Z) (listen_timeout events_limit : option Z)
    (w : World) (st st' : Process) (limit : Z) :
  namespace st !! "stop_secs" = Some (PyInt limit) →
  listen PREFIX is_info json_loads get_models db schema poll_timeout
         listen_timeout events_limit w st = (Ok Returned, st') →
  ∃ wk,
    wk ∈ w_wakes w
    ∧ limit ≠ 0
    ∧ limit ≤ timedelta_seconds (wk_now wk - w_started_at w) < 86400.
Proof.
  intros Hbound. unfold listen, mbind, M_bind, cursor_execute.
  destruct (connections st !! db) as [c|]; [|done]. simpl. intros Hrun.
  apply iter_notifies_returned in Hrun as (v & wk & Hv & Htr & Hin & Hge).
  simpl in Hv. rewrite Hbound in Hv. injection Hv as <-.
  pose proof (timedelta_seconds_range (wk_now wk - w_started_at w)) as Hr.
  simpl in Hge, Htr. injection Hge as Hge. apply Z.leb_le in Hge.
  apply negb_true_iff, Z.eqb_neq in Htr.
  exists wk. split; [done|]. lia.
Qed.

Lemma listen_returns_only_on_stop_secs_witness :
  ∃ wk,
    wk ∈ w_wakes Cases.two_turns
    ∧ 2 ≠ 0
    ∧ 2 ≤ timedelta_seconds (wk_now wk - w_started_at Cases.two_turns) < 86400.
Proof.
  assert (H0 : namespace Cases.limited !! "stop_secs" = Some (PyInt 2))
    by (vm_compute; reflexivity).
  assert (H : listen "pg" false Sample.loads Sample.models "default" "public" 5 (Some 60)
                     None Cases.two_turns Cases.limited
              = (Ok Returned, Cases.after_two_turns)) by (vm_compute; reflexivity).
  exact (listen_returns_only_on_stop_secs "pg" false Sample.loads Sample.models
           "default" "public" 5 (Some 60) None Cases.two_turns Cases.limited
           Cases.after_two_turns 2 H0 H).
Defined.

(** ** Binding twice *)

(** [bind_table] is idempotent where the capture routine is installed
    whenever the flag says so, and the names are plain. On a table of
    the database, with a non-empty set of operations, it first sends
    the [DROP TRIGGER IF EXISTS] of [unbind_table], then (the capture
    routine being installed once) one [CREATE TRIGGER];
    it returns, and the catalog then holds exactly one trigger with the
    module's name for the table. A second call with the same arguments
    returns as well and leaves the same triggers: one capture trigger for
    the table, and the triggers it did not make untouched. With no
    operation at all [bind_table] is [unbind_table]. *)
Theorem bind_table_twice_leaves_one_trigger
    (PREFIX : string) (is_info : bool)
    (table : string) (events : list EventKind) (db schema : string)
    (st : Process) (c : Pg.Catalog) :
  Pg.plain PREFIX schema table = true →
  connections st !! db = Some c →
  schema ∈ Pg.schemas c →
  (schema, table) ∈ Pg.tables c →
  events ≠ [] → NoDup events →
  (_func_created st = true → (schema, Pg.emit_func_name PREFIX) ∈ Pg.functions c) →
  (∃ st1 st2 c1 c2,
     bind_table PREFIX is_info table events db schema st = (Ok (), st1)
     ∧ connections st1 !! db = Some c1
     ∧ journal st1 = journal st
         ++ [mkAttempt db (Pg.DROP_TRIGGER PREFIX schema table) true]
         ++ (if _func_created st then []
             else [mkAttempt db (Pg.CREATE_EMIT_FUNC PREFIX schema) true])
         ++ [mkAttempt db (Pg.CREATE_TRIGGER PREFIX schema table (value <$> events)) true]
     ∧ Pg.capture_triggers PREFIX schema table c1
       = [Pg.capture_trigger PREFIX schema table events]
     ∧ bind_table PREFIX is_info table events db schema st1 = (Ok (), st2)
     ∧ connections st2 !! db = Some c2
     ∧ Pg.capture_triggers PREFIX schema table c2
       = [Pg.capture_trigger PREFIX schema table events]
     ∧ length (Pg.capture_triggers PREFIX schema table c2) = 1%nat
     ∧ Pg.triggers c2 = Pg.triggers c1
     ∧ Pg.triggers c2
       = filter (λ t, ¬ Pg.is_trigger (Pg.trigger_name PREFIX table) schema table t)
                (Pg.triggers c)
         ++ [Pg.capture_trigger PREFIX schema table events])
  ∧ (∀ s, bind_table PREFIX is_info table [] db schema s
          = unbind_table PREFIX is_info table db schema s).
Proof.
  intros _ Hc Hs Ht Hne Hnd Hfn. split.
  - destruct (bind_table_accepted PREFIX is_info table events db schema st c)
      as (st1 & c1 & Hb1 & Hc1 & Hf1 & Hs1 & Ht1 & Hfn1 & Htr1 & Hj1); try done.
    assert (Hl1 : connections st1 !! db = Some c1) by (by rewrite Hc1, lookup_insert_eq).
    destruct (bind_table_accepted PREFIX is_info table events db schema st1 c1)
      as (st2 & c2 & Hb2 & Hc2 & Hf2 & Hs2 & Ht2 & Hfn2 & Htr2 & Hj2); try done.
    { by rewrite Hs1. } { by rewrite Ht1. }
    assert (Htr : Pg.triggers c2 = Pg.triggers c1).
    { by rewrite Htr2, Htr1, filter_capture_snoc, list_filter_filter_l. }
    exists st1, st2, c1, c2. repeat split; try done.
    + by apply (capture_triggers_after_bind PREFIX schema table events (Pg.triggers c)).
    + by rewrite Hc2, lookup_insert_eq.
    + by apply (capture_triggers_after_bind PREFIX schema table events (Pg.triggers c1)).
    + by rewrite (capture_triggers_after_bind PREFIX schema table events (Pg.triggers c1)).
    + by rewrite Htr.
  - intros s. rewrite bind_table_unfold.
    by destruct (unbind_table PREFIX is_info table db schema s) as [[[]|e] s1].
Qed.

Lemma bind_table_twice_leaves_one_trigger_witness :
  ∃ st2 c2,
    (bind_table "pg" true "book" ALL_EVENTS "default" "public";;
     bind_table "pg" true "book" ALL_EVENTS "default" "public") Sample.process
    = (Ok (), st2)
    ∧ connections st2 !! "default" = Some c2
    ∧ Pg.triggers c2 = [Pg.capture_trigger "pg" "public" "book" ALL_EVENTS].
Proof.
  destruct (bind_table_twice_leaves_one_trigger "pg" true "book" ALL_EVENTS
              "default" "public" Sample.process Sample.catalog)
    as [(st1 & st2 & c1 & c2 & H1 & _ & _ & _ & H2 & Hc2 & _ & _ & _ & Htr) _].
  - reflexivity.
  - reflexivity.
  - simpl. apply list_elem_of_here.
  - simpl. apply list_elem_of_here.
  - discriminate.
  - apply (bool_decide_unpack (NoDup ALL_EVENTS)). vm_compute. exact I.
  - discriminate.
  - exists st2, c2. split; [|split; [exact Hc2|exact Htr]].
    unfold mbind, M_bind. rewrite H1. exact H2.
Defined.
